(** * MacPmem: lifecycle of the /dev/pmem and /dev/pmem_info character devices

    A shallow embedding of [tools/osx/MacPmem/MacPmem/MacPmem.c]: the three
    switch-table callbacks ([pmem_open], [pmem_close], [pmem_read]), the
    acquisition routine [pmem_init], the rollback routine [pmem_cleanup] and
    the two kext entry points.

    The file keeps its state in static variables and talks to the kernel and
    to the sibling modules (meta, pte_mmap, logging) through function calls
    only.  The embedding therefore threads a [world] made of the values of the
    static variables and of the history of calls that left the file, and takes
    the answers to those calls from a [platform].  Integers and pointers are
    [Z]; a null pointer is [0]. *)

From Stdlib Require Import ZArith List String Bool Lia.
Import ListNotations.
Open Scope Z_scope.

(** ** Calls that leave the file *)

(** The five logging macros of [logging.h]. *)
Inductive level : Type := Debug | Info | Warn | Error | Fatal.

(** An argument of a format string: [%d] takes an [int], [%s] a string. *)
Inductive logarg : Type :=
| arg_d (v : Z)
| arg_s (s : string).

(** One constructor per function the file calls, with the arguments that
    vary.  [devfs_make_node] is always called with [DEVFS_CHAR], [UID_ROOT]
    and [GID_WHEEL], [OSMalloc_Tagalloc] with [OSMT_DEFAULT], and the cdevsw
    and sysctl calls with the address of the one table or oid of the file;
    these fixed arguments are not recorded. *)
Inductive call : Type :=
| OSMalloc_Tagalloc (name : string)
| OSMalloc_Tagfree (tag : Z)
| lck_grp_attr_alloc_init
| lck_grp_attr_setstat (attr : Z)
| lck_grp_alloc_init (name : string) (attr : Z)
| lck_grp_attr_free (attr : Z)
| lck_grp_free (grp : Z)
| cdevsw_add (index : Z)
| cdevsw_remove (index : Z)
| devfs_make_node (dev perms : Z) (name : string)
| devfs_remove (node : Z)
| sysctl_register_oid
| sysctl_unregister_oid
| pmem_meta_init
| pmem_meta_cleanup
| pmem_pte_init
| pmem_pte_cleanup
| pmem_openmeta
| pmem_closemeta
| pmem_readmeta (uio : Z)
| pmem_read_rogue (uio : Z)
| pmem_log (l : level) (fmt : string) (args : list logarg).

(** What the file does not define: the header constant [PMEM_MAJOR], the
    [DEBUG] build flag, the [minor] and [makedev] macros of the kernel
    headers, and the value every call returns.  A call's answer may depend on
    all the calls made before it, which is as much as a sequential caller can
    observe of the kernel's own state.  The answer to a [void] function is
    never read. *)
Record platform : Type := mkPlatform {
  PMEM_MAJOR : Z;
  DEBUG : bool;
  minor : Z -> Z;
  makedev : Z -> Z -> Z;
  respond : list call -> call -> Z
}.

(** [kern_return_t] codes of [<mach/kern_return.h>]. *)
Definition KERN_SUCCESS : Z := 0.
Definition KERN_FAILURE : Z := 5.

(** ** Static variables of the file *)

Record globals : Type := mkGlobals {
  pmem_majorno : Z;
  pmem_tag : Z;
  pmem_rwlock_grp : Z;
  pmem_rwlock_grp_attr : Z;
  pmem_mutex_grp : Z;
  pmem_mutex_grp_attr : Z;
  pmem_sysctl_needs_cleanup : Z;
  pmem_infonode : Z;
  pmem_devnode : Z
}.

Definition set_pmem_majorno (v : Z) (g : globals) : globals :=
  mkGlobals v (pmem_tag g) (pmem_rwlock_grp g) (pmem_rwlock_grp_attr g)
    (pmem_mutex_grp g) (pmem_mutex_grp_attr g) (pmem_sysctl_needs_cleanup g)
    (pmem_infonode g) (pmem_devnode g).

Definition set_pmem_tag (v : Z) (g : globals) : globals :=
  mkGlobals (pmem_majorno g) v (pmem_rwlock_grp g) (pmem_rwlock_grp_attr g)
    (pmem_mutex_grp g) (pmem_mutex_grp_attr g) (pmem_sysctl_needs_cleanup g)
    (pmem_infonode g) (pmem_devnode g).

Definition set_pmem_rwlock_grp (v : Z) (g : globals) : globals :=
  mkGlobals (pmem_majorno g) (pmem_tag g) v (pmem_rwlock_grp_attr g)
    (pmem_mutex_grp g) (pmem_mutex_grp_attr g) (pmem_sysctl_needs_cleanup g)
    (pmem_infonode g) (pmem_devnode g).

Definition set_pmem_rwlock_grp_attr (v : Z) (g : globals) : globals :=
  mkGlobals (pmem_majorno g) (pmem_tag g) (pmem_rwlock_grp g) v
    (pmem_mutex_grp g) (pmem_mutex_grp_attr g) (pmem_sysctl_needs_cleanup g)
    (pmem_infonode g) (pmem_devnode g).

Definition set_pmem_mutex_grp (v : Z) (g : globals) : globals :=
  mkGlobals (pmem_majorno g) (pmem_tag g) (pmem_rwlock_grp g)
    (pmem_rwlock_grp_attr g) v (pmem_mutex_grp_attr g)
    (pmem_sysctl_needs_cleanup g) (pmem_infonode g) (pmem_devnode g).

Definition set_pmem_mutex_grp_attr (v : Z) (g : globals) : globals :=
  mkGlobals (pmem_majorno g) (pmem_tag g) (pmem_rwlock_grp g)
    (pmem_rwlock_grp_attr g) (pmem_mutex_grp g) v
    (pmem_sysctl_needs_cleanup g) (pmem_infonode g) (pmem_devnode g).

Definition set_pmem_sysctl_needs_cleanup (v : Z) (g : globals) : globals :=
  mkGlobals (pmem_majorno g) (pmem_tag g) (pmem_rwlock_grp g)
    (pmem_rwlock_grp_attr g) (pmem_mutex_grp g) (pmem_mutex_grp_attr g) v
    (pmem_infonode g) (pmem_devnode g).

Definition set_pmem_infonode (v : Z) (g : globals) : globals :=
  mkGlobals (pmem_majorno g) (pmem_tag g) (pmem_rwlock_grp g)
    (pmem_rwlock_grp_attr g) (pmem_mutex_grp g) (pmem_mutex_grp_attr g)
    (pmem_sysctl_needs_cleanup g) v (pmem_devnode g).

Definition set_pmem_devnode (v : Z) (g : globals) : globals :=
  mkGlobals (pmem_majorno g) (pmem_tag g) (pmem_rwlock_grp g)
    (pmem_rwlock_grp_attr g) (pmem_mutex_grp g) (pmem_mutex_grp_attr g)
    (pmem_sysctl_needs_cleanup g) (pmem_infonode g) v.

(** The static initialisers: [pmem_majorno = PMEM_MAJOR], everything else
    zero. *)
Definition initial_globals (p : platform) : globals :=
  mkGlobals (PMEM_MAJOR p) 0 0 0 0 0 0 0 0.

(** ** The world and the monad of the file's functions *)

Record world : Type := mkWorld {
  vars : globals;
  history : list call
}.

Definition initial_world (p : platform) : world :=
  mkWorld (initial_globals p) [].

Definition kern (A : Type) : Type := world -> A * world.

Definition ret {A : Type} (a : A) : kern A := fun w => (a, w).

Definition bind {A B : Type} (m : kern A) (k : A -> kern B) : kern B :=
  fun w => let (a, w') := m w in k a w'.

Declare Scope kern_scope.
Delimit Scope kern_scope with kern.
Bind Scope kern_scope with kern.

Notation "x <- m ;; k" := (bind m (fun x => k))
  (at level 61, m at next level, right associativity) : kern_scope.
Notation "m ;; k" := (bind m (fun _ => k))
  (at level 61, right associativity) : kern_scope.

Open Scope kern_scope.

(** Reading and writing a static variable. *)
Definition load (field : globals -> Z) : kern Z :=
  fun w => (field (vars w), w).

Definition store (upd : Z -> globals -> globals) (v : Z) : kern unit :=
  fun w => (tt, mkWorld (upd v (vars w)) (history w)).

(** C truth of an integer or pointer. *)
Definition truthy (v : Z) : bool := negb (v =? 0).

Definition when {A : Type} (b : bool) (m : kern A) : kern unit :=
  if b then (m ;; ret tt) else ret tt.

Section MacPmem.

Variable p : platform.

(** A call that leaves the file: the platform answers it from the history,
    and the call joins the history. *)
Definition host (c : call) : kern Z :=
  fun w => (respond p (history w) c, mkWorld (vars w) (history w ++ [c])).

Definition pmem_debug (fmt : string) (args : list logarg) : kern Z :=
  host (pmem_log Debug fmt args).
Definition pmem_info (fmt : string) (args : list logarg) : kern Z :=
  host (pmem_log Info fmt args).
Definition pmem_warn (fmt : string) (args : list logarg) : kern Z :=
  host (pmem_log Warn fmt args).
Definition pmem_error (fmt : string) (args : list logarg) : kern Z :=
  host (pmem_log Error fmt args).
Definition pmem_fatal (fmt : string) (args : list logarg) : kern Z :=
  host (pmem_log Fatal fmt args).

(** ** Constants of the file *)

Definition pmem_tagname : string := "pmem_tag".
Definition PMEM_DEV_MINOR : Z := 1.
Definition pmem_devname : string := "pmem".
Definition PMEM_INFO_MINOR : Z := 2.
Definition pmem_infoname : string := "pmem_info".

(** [0666] with [DEBUG], [0660] without. *)
Definition PMEM_DEV_PERMS : Z := if DEBUG p then 438 else 432.

(** ** Switch-table callbacks *)

Definition pmem_open (dev : Z) : kern Z :=
  if minor p dev =? PMEM_DEV_MINOR then ret KERN_SUCCESS
  else if minor p dev =? PMEM_INFO_MINOR then host pmem_openmeta
  else
    pmem_warn "Unknown minor device number %d." [arg_d (minor p dev)] ;;
    ret KERN_FAILURE.

Definition pmem_close (dev : Z) : kern Z :=
  if minor p dev =? PMEM_DEV_MINOR then ret KERN_SUCCESS
  else if minor p dev =? PMEM_INFO_MINOR then host pmem_closemeta
  else
    pmem_warn "Unknown minor device number %d." [arg_d (minor p dev)] ;;
    ret KERN_FAILURE.

Definition pmem_read (dev uio : Z) : kern Z :=
  if minor p dev =? PMEM_DEV_MINOR then host (pmem_read_rogue uio)
  else if minor p dev =? PMEM_INFO_MINOR then host (pmem_readmeta uio)
  else
    pmem_warn "Unknown minor device number %d." [arg_d (minor p dev)] ;;
    ret KERN_FAILURE.

(** ** Rollback *)

Definition cdevsw_mismatch_fmt : string :=
  "Failed to remove cdevsw! Major number is %d, but cdevsw_remove() returned %d.".

Definition pmem_cleanup (error : Z) : kern Z :=
  devnode <- load pmem_devnode ;;
  when (truthy devnode) (host (devfs_remove devnode)) ;;
  infonode <- load pmem_infonode ;;
  when (truthy infonode) (host (devfs_remove infonode)) ;;
  majorno <- load pmem_majorno ;;
  error <- (if 0 <? majorno then
              removed_idx <- host (cdevsw_remove majorno) ;;
              if negb (removed_idx =? majorno) then
                pmem_error cdevsw_mismatch_fmt [arg_d majorno; arg_d removed_idx] ;;
                ret KERN_FAILURE
              else ret error
            else ret error) ;;
  tag <- load pmem_tag ;;
  when (truthy tag) (host (OSMalloc_Tagfree tag)) ;;
  host pmem_meta_cleanup ;;
  host pmem_pte_cleanup ;;
  needs_cleanup <- load pmem_sysctl_needs_cleanup ;;
  when (truthy needs_cleanup) (host sysctl_unregister_oid) ;;
  mutex_grp_attr <- load pmem_mutex_grp_attr ;;
  host (lck_grp_attr_free mutex_grp_attr) ;;
  mutex_grp <- load pmem_mutex_grp ;;
  host (lck_grp_free mutex_grp) ;;
  rwlock_grp_attr <- load pmem_rwlock_grp_attr ;;
  host (lck_grp_attr_free rwlock_grp_attr) ;;
  rwlock_grp <- load pmem_rwlock_grp ;;
  host (lck_grp_free rwlock_grp) ;;
  ret error.

(** ** Acquisition *)

Definition pmem_init : kern Z :=
  tag <- host (OSMalloc_Tagalloc pmem_tagname) ;;
  store set_pmem_tag tag ;;
  rwlock_grp_attr <- host lck_grp_attr_alloc_init ;;
  store set_pmem_rwlock_grp_attr rwlock_grp_attr ;;
  host (lck_grp_attr_setstat rwlock_grp_attr) ;;
  rwlock_grp <- host (lck_grp_alloc_init "pmem_rwlock" rwlock_grp_attr) ;;
  store set_pmem_rwlock_grp rwlock_grp ;;
  mutex_grp_attr <- host lck_grp_attr_alloc_init ;;
  store set_pmem_mutex_grp_attr mutex_grp_attr ;;
  host (lck_grp_attr_setstat mutex_grp_attr) ;;
  mutex_grp <- host (lck_grp_alloc_init "pmem_mutex" mutex_grp_attr) ;;
  store set_pmem_mutex_grp mutex_grp ;;
  majorno <- host (cdevsw_add (PMEM_MAJOR p)) ;;
  store set_pmem_majorno majorno ;;
  if majorno <? 0 then
    pmem_error "Failed to register a major number." [] ;;
    ret KERN_FAILURE
  else
    pmem_debug "Major number is %d." [arg_d majorno] ;;
    infonode <- host (devfs_make_node (makedev p majorno PMEM_INFO_MINOR)
                                      PMEM_DEV_PERMS pmem_infoname) ;;
    store set_pmem_infonode infonode ;;
    if negb (truthy infonode) then
      pmem_error "Failed to create /dev/%s" [arg_s pmem_infoname] ;;
      ret KERN_FAILURE
    else
      pmem_info "/dev/%s created for the info device." [arg_s pmem_infoname] ;;
      devnode <- host (devfs_make_node (makedev p majorno PMEM_DEV_MINOR)
                                       PMEM_DEV_PERMS pmem_devname) ;;
      store set_pmem_devnode devnode ;;
      if negb (truthy devnode) then
        pmem_error "Failed to create /dev/%s" [arg_s pmem_devname] ;;
        ret KERN_FAILURE
      else
        pmem_info "/dev/%s created for the physical memory device."
                  [arg_s pmem_devname] ;;
        ret KERN_SUCCESS.

(** ** Kext entry points *)

Definition com_google_MacPmem_start : kern Z :=
  pmem_info "Loaded MacPmem." [] ;;
  error <- pmem_init ;;
  if negb (error =? KERN_SUCCESS) then
    pmem_fatal "pmem_init() failed." [] ;;
    pmem_cleanup error
  else
    error <- host pmem_meta_init ;;
    if negb (error =? KERN_SUCCESS) then
      pmem_fatal "Could not initialize pmem meta." [] ;;
      pmem_cleanup error
    else
      error <- host pmem_pte_init ;;
      if negb (error =? KERN_SUCCESS) then
        pmem_fatal "Could not initialize PTE mmap module." [] ;;
        pmem_cleanup error
      else
        host sysctl_register_oid ;;
        store set_pmem_sysctl_needs_cleanup 1 ;;
        ret error.

Definition com_google_MacPmem_stop : kern Z :=
  pmem_info "Unloading MacPmem" [] ;;
  pmem_cleanup KERN_SUCCESS.

End MacPmem.

(** ** Vocabulary of the statements *)

(** The calls a computation adds to the history of the world it starts in. *)
Definition calls_of {A : Type} (m : kern A) (w : world) : list call :=
  skipn (List.length (history w)) (history (snd (m w))).

(** The calls that give a resource back. *)
Definition is_release (c : call) : bool :=
  match c with
  | OSMalloc_Tagfree _ | lck_grp_attr_free _ | lck_grp_free _
  | cdevsw_remove _ | devfs_remove _ | sysctl_unregister_oid
  | pmem_meta_cleanup | pmem_pte_cleanup => true
  | _ => false
  end.

Definition is_node_removal (c : call) : bool :=
  match c with devfs_remove _ => true | _ => false end.

Definition is_deregistration (c : call) : bool :=
  match c with cdevsw_remove _ => true | _ => false end.

(** Calls to the sibling modules behind the two devices. *)
Definition is_collaborator (c : call) : bool :=
  match c with
  | pmem_openmeta | pmem_closemeta | pmem_readmeta _ | pmem_read_rogue _
  | pmem_meta_init | pmem_meta_cleanup | pmem_pte_init | pmem_pte_cleanup => true
  | _ => false
  end.

(** No node is removed once a major number has been deregistered. *)
Fixpoint nodes_before_major (l : list call) : bool :=
  match l with
  | [] => true
  | c :: l' =>
      (if is_deregistration c then forallb (fun c' => negb (is_node_removal c')) l'
       else true) && nodes_before_major l'
  end.

(** The three groups of calls of one run of the rollback in globals [g]:
    node removals, the deregistration with its check, and the rest. *)
Definition node_removals (g : globals) : list call :=
  (if truthy (pmem_devnode g) then [devfs_remove (pmem_devnode g)] else []) ++
  (if truthy (pmem_infonode g) then [devfs_remove (pmem_infonode g)] else []).

(** What [cdevsw_remove] answers in a rollback started in world [w]. *)
Definition removed_idx (p : platform) (w : world) : Z :=
  respond p (history w ++ node_removals (vars w))
    (cdevsw_remove (pmem_majorno (vars w))).

Definition major_deregistration (p : platform) (w : world) : list call :=
  if 0 <? pmem_majorno (vars w) then
    cdevsw_remove (pmem_majorno (vars w)) ::
    (if removed_idx p w =? pmem_majorno (vars w) then []
     else [pmem_log Error cdevsw_mismatch_fmt
             [arg_d (pmem_majorno (vars w)); arg_d (removed_idx p w)]])
  else [].

Definition lock_group_release (g : globals) : list call :=
  [lck_grp_attr_free (pmem_mutex_grp_attr g); lck_grp_free (pmem_mutex_grp g);
   lck_grp_attr_free (pmem_rwlock_grp_attr g); lck_grp_free (pmem_rwlock_grp g)].

Definition later_cleanup (g : globals) : list call :=
  (if truthy (pmem_tag g) then [OSMalloc_Tagfree (pmem_tag g)] else []) ++
  [pmem_meta_cleanup; pmem_pte_cleanup] ++
  (if truthy (pmem_sysctl_needs_cleanup g) then [sysctl_unregister_oid] else []) ++
  lock_group_release g.

Definition rollback_calls (p : platform) (w : world) : list call :=
  node_removals (vars w) ++ major_deregistration p w ++ later_cleanup (vars w).

(** The status of a rollback started in [w] with argument [error]. *)
Definition rollback_status (p : platform) (error : Z) (w : world) : Z :=
  if 0 <? pmem_majorno (vars w) then
    if removed_idx p w =? pmem_majorno (vars w) then error else KERN_FAILURE
  else error.

(** The step of the start sequence a release call undoes, numbered as
    acquired: 1 lock groups, 2 major number, 3 info node, 4 memory node,
    5 metadata module, 6 PTE module, 7 sysctl.  The allocation tag and the
    log messages belong to no step. *)
Definition release_step (g : globals) (c : call) : option nat :=
  match c with
  | lck_grp_attr_free _ | lck_grp_free _ => Some 1%nat
  | cdevsw_remove _ => Some 2%nat
  | devfs_remove n => if n =? pmem_devnode g then Some 4%nat else Some 3%nat
  | pmem_meta_cleanup => Some 5%nat
  | pmem_pte_cleanup => Some 6%nat
  | sysctl_unregister_oid => Some 7%nat
  | _ => None
  end.

Fixpoint released_steps (g : globals) (l : list call) : list nat :=
  match l with
  | [] => []
  | c :: l' =>
      match release_step g c with
      | Some k => k :: released_steps g l'
      | None => released_steps g l'
      end
  end.

(** Steps listed from the latest acquired to the earliest. *)
Fixpoint descending (l : list nat) : bool :=
  match l with
  | a :: (b :: _) as l' => (b <=? a)%nat && descending l'
  | _ => true
  end.

(** The release calls of a rollback in globals [g], log messages left out. *)
Definition rollback_releases (g : globals) : list call :=
  node_removals g ++
  (if 0 <? pmem_majorno g then [cdevsw_remove (pmem_majorno g)] else []) ++
  later_cleanup g.

Definition no_release (l : list call) : bool :=
  forallb (fun c => negb (is_release c)) l.

Definition is_log (c : call) : bool :=
  match c with pmem_log _ _ _ => true | _ => false end.

(** The last call of [l] that is not a log message, with the calls before
    it. *)
Fixpoint last_call (l : list call) : option (list call * call) :=
  match l with
  | [] => None
  | c :: l' =>
      match last_call l' with
      | Some (pre, x) => Some (c :: pre, x)
      | None => if is_log c then None else Some ([], c)
      end
  end.

(** [step_failed p t acq e]: the calls [acq], made after history [t], end
    with a step of the start sequence that failed with error [e].  A refused
    registration or node creation makes [pmem_init] return [KERN_FAILURE];
    a module initialisation fails with the status it returns. *)
Definition step_failed (p : platform) (t acq : list call) (e : Z) : Prop :=
  match last_call acq with
  | Some (pre, cdevsw_add i) =>
      respond p (t ++ pre) (cdevsw_add i) < 0 /\ e = KERN_FAILURE
  | Some (pre, devfs_make_node d pm n) =>
      respond p (t ++ pre) (devfs_make_node d pm n) = 0 /\ e = KERN_FAILURE
  | Some (pre, pmem_meta_init) =>
      e = respond p (t ++ pre) pmem_meta_init /\ e <> KERN_SUCCESS
  | Some (pre, pmem_pte_init) =>
      e = respond p (t ++ pre) pmem_pte_init /\ e <> KERN_SUCCESS
  | _ => False
  end.

(** One more call at the end of a history. *)
Definition snoc (t : list call) (c : call) : list call := t ++ [c].

(** ** Concrete platforms *)

(** The Darwin macros: 24 bits of minor number under 8 bits of major. *)
Definition darwin_minor (dev : Z) : Z := Z.land dev 16777215.
Definition darwin_makedev (x y : Z) : Z := Z.lor (Z.shiftl x 24) y.

(** A kernel that gives the allocation tag, the lock groups and their
    attributes distinct non-null handles ([locks = false]: null lock-group
    and attribute handles instead), answers [major] to the registration,
    [echo m] when major [m] is deregistered, and [meta] and [pte] to the two
    module initialisations; the nodes get distinct non-null handles. *)
Definition sample_respond (locks : bool) (major : Z) (echo : Z -> Z)
    (meta pte : Z) (t : list call) (c : call) : Z :=
  match c with
  | OSMalloc_Tagalloc _ => 4096
  | lck_grp_attr_alloc_init =>
      if locks then 8192 + 16 * Z.of_nat (List.length t) else 0
  | lck_grp_alloc_init _ attr => if locks then attr + 8 else 0
  | cdevsw_add _ => major
  | cdevsw_remove m => echo m
  | devfs_make_node dev _ _ => 65536 + darwin_minor dev
  | pmem_meta_init => meta
  | pmem_pte_init => pte
  | _ => 0
  end.

Definition sample_platform (locks : bool) (major : Z) (echo : Z -> Z)
    (meta pte : Z) : platform :=
  mkPlatform (-1) false darwin_minor darwin_makedev
    (sample_respond locks major echo meta pte).

(** Everything succeeds; major number 17. *)
Definition healthy : platform :=
  sample_platform true 17 (fun m => m) KERN_SUCCESS KERN_SUCCESS.

(** As [healthy], but [cdevsw_remove] answers -1. *)
Definition bad_echo : platform :=
  sample_platform true 17 (fun _ => -1) KERN_SUCCESS KERN_SUCCESS.

(** As [healthy], but the PTE module fails to initialise (step 6). *)
Definition pte_fails : platform :=
  sample_platform true 17 (fun m => m) KERN_SUCCESS KERN_FAILURE.

(** As [healthy], but the kernel assigns major number 0. *)
Definition major_zero : platform :=
  sample_platform true 0 (fun m => m) KERN_SUCCESS KERN_SUCCESS.

(** The metadata module fails to initialise with [KERN_INVALID_ARGUMENT]
    (step 5), and [cdevsw_remove] answers -1. *)
Definition KERN_INVALID_ARGUMENT : Z := 4.

Definition meta_fails_bad_echo : platform :=
  sample_platform true 17 (fun _ => -1) KERN_INVALID_ARGUMENT KERN_SUCCESS.

(** The world once [com_google_MacPmem_start] has run on [p]. *)
Definition started (p : platform) : world :=
  snd (com_google_MacPmem_start p (initial_world p)).

(** ** Vocabulary of the statements on acquisition *)

(** The calls [l], made after history [t], each with the answer the
    platform gave it. *)
Fixpoint answers (p : platform) (t l : list call) : list (call * Z) :=
  match l with
  | [] => []
  | c :: l' => (c, respond p t c) :: answers p (t ++ [c]) l'
  end.

Definition is_make_node (c : call) : bool :=
  match c with devfs_make_node _ _ _ => true | _ => false end.

Definition is_registration (c : call) : bool :=
  match c with cdevsw_add _ => true | _ => false end.

Definition is_setstat (c : call) : bool :=
  match c with lck_grp_attr_setstat _ => true | _ => false end.

Definition is_sysctl (c : call) : bool :=
  match c with sysctl_register_oid | sysctl_unregister_oid => true | _ => false end.

(** The two node creations of [pmem_init], as read back from the globals
    [g] it leaves: none when the registration was refused, the info node
    alone when its creation failed. *)
Definition info_node_call (p : platform) (g : globals) : call :=
  devfs_make_node (makedev p (pmem_majorno g) PMEM_INFO_MINOR)
    (PMEM_DEV_PERMS p) pmem_infoname.

Definition dev_node_call (p : platform) (g : globals) : call :=
  devfs_make_node (makedev p (pmem_majorno g) PMEM_DEV_MINOR)
    (PMEM_DEV_PERMS p) pmem_devname.

Definition created_nodes (p : platform) (g : globals) : list (call * Z) :=
  if pmem_majorno g <? 0 then []
  else (info_node_call p g, pmem_infonode g) ::
       (if truthy (pmem_infonode g)
        then [(dev_node_call p g, pmem_devnode g)] else []).

(** The messages of [com_google_MacPmem_start]. *)
Definition loaded_msg : call := pmem_log Info "Loaded MacPmem." [].
Definition init_failed_msg : call := pmem_log Fatal "pmem_init() failed." [].
Definition meta_failed_msg : call :=
  pmem_log Fatal "Could not initialize pmem meta." [].
Definition pte_failed_msg : call :=
  pmem_log Fatal "Could not initialize PTE mmap module." [].

(** The calls of a failing start between [pmem_init] and the rollback,
    for each of the three places where it gives up. *)
Inductive gave_up : Type := at_init | at_meta | at_pte.

Definition calls_before_rollback (k : gave_up) : list call :=
  match k with
  | at_init => [init_failed_msg]
  | at_meta => [pmem_meta_init; meta_failed_msg]
  | at_pte => [pmem_meta_init; pmem_pte_init; pte_failed_msg]
  end.

(** As [healthy], but the kernel refuses to register a major number. *)
Definition major_refused : platform :=
  sample_platform true (-1) (fun m => m) KERN_SUCCESS KERN_SUCCESS.

Definition unloading_msg : call := pmem_log Info "Unloading MacPmem" [].

Definition is_module_init (c : call) : bool :=
  match c with pmem_meta_init | pmem_pte_init => true | _ => false end.

Definition is_lock_free (c : call) : bool :=
  match c with lck_grp_attr_free _ | lck_grp_free _ => true | _ => false end.

(** ** Vocabulary of the statements on a failing start *)

(** The world in which [com_google_MacPmem_start] runs [pmem_init], the
    globals [pmem_init] leaves there, the history when it returns, and what
    the two modules answer next. *)
Definition init_world (w : world) : world :=
  mkWorld (vars w) (history w ++ [loaded_msg]).

Definition init_globals (p : platform) (w : world) : globals :=
  vars (snd (pmem_init p (init_world w))).

Definition init_history (p : platform) (w : world) : list call :=
  history w ++ loaded_msg :: calls_of (pmem_init p) (init_world w).

Definition meta_answer (p : platform) (w : world) : Z :=
  respond p (init_history p w) pmem_meta_init.

Definition pte_answer (p : platform) (w : world) : Z :=
  respond p (init_history p w ++ [pmem_meta_init]) pmem_pte_init.

(** The steps of the start sequence that the code tests, in order. *)
Inductive failed_step : Type :=
| registration_refused
| info_node_refused
| dev_node_refused
| meta_init_failed
| pte_init_failed.

(** [fails_at p w k]: in a start from world [w] on platform [p], step [k]
    is the one the kernel or the module answers with a failure: a negative
    number to the registration, a null handle to the creation of the node
    of that name, or, [pmem_init] having succeeded, a status other than
    [KERN_SUCCESS] to the module initialisation (the metadata module
    having succeeded, for the PTE module). *)
Definition fails_at (p : platform) (w : world) (k : failed_step) : Prop :=
  let tr := answers p (history (init_world w))
              (calls_of (pmem_init p) (init_world w)) in
  match k with
  | registration_refused =>
      exists v, In (cdevsw_add (PMEM_MAJOR p), v) tr /\ v < 0
  | info_node_refused =>
      exists d pm, In (devfs_make_node d pm pmem_infoname, 0) tr
  | dev_node_refused =>
      exists d pm, In (devfs_make_node d pm pmem_devname, 0) tr
  | meta_init_failed =>
      fst (pmem_init p (init_world w)) = KERN_SUCCESS /\
      meta_answer p w <> KERN_SUCCESS
  | pte_init_failed =>
      fst (pmem_init p (init_world w)) = KERN_SUCCESS /\
      meta_answer p w = KERN_SUCCESS /\
      pte_answer p w <> KERN_SUCCESS
  end.

(** The error of the failing step: [KERN_FAILURE] from [pmem_init], the
    status a module answered otherwise. *)
Definition error_of (p : platform) (w : world) (k : failed_step) : Z :=
  match k with
  | registration_refused | info_node_refused | dev_node_refused => KERN_FAILURE
  | meta_init_failed => meta_answer p w
  | pte_init_failed => pte_answer p w
  end.

Definition gave_up_at (k : failed_step) : gave_up :=
  match k with
  | registration_refused | info_node_refused | dev_node_refused => at_init
  | meta_init_failed => at_meta
  | pte_init_failed => at_pte
  end.

(** The world in which the rollback of a start that failed at [k] runs. *)
Definition rollback_world (p : platform) (w : world) (k : failed_step)
    : world :=
  mkWorld (init_globals p w)
    (init_history p w ++ calls_before_rollback (gave_up_at k)).

(** [cdevsw_remove] is called in a rollback started in [w] and answers
    another number than [pmem_majorno]. *)
Definition echo_mismatch (p : platform) (w : world) : bool :=
  (0 <? pmem_majorno (vars w)) &&
  negb (removed_idx p w =? pmem_majorno (vars w)).

(** As [healthy], but both lock-group allocations return null (the
    attributes are allocated). *)
Definition null_groups_respond (t : list call) (c : call) : Z :=
  match c with
  | lck_grp_alloc_init _ _ => 0
  | _ => sample_respond true 17 (fun m => m) KERN_SUCCESS KERN_SUCCESS t c
  end.

Definition null_lock_groups : platform :=
  mkPlatform (-1) false darwin_minor darwin_makedev null_groups_respond.

(** As [healthy], but the creation of the node with minor [refused]
    returns null. *)
Definition node_refusing_respond (refused : Z) (t : list call) (c : call)
    : Z :=
  match c with
  | devfs_make_node dev _ _ =>
      if darwin_minor dev =? refused then 0 else 65536 + darwin_minor dev
  | _ => sample_respond true 17 (fun m => m) KERN_SUCCESS KERN_SUCCESS t c
  end.

Definition info_node_fails : platform :=
  mkPlatform (-1) false darwin_minor darwin_makedev
    (node_refusing_respond PMEM_INFO_MINOR).

Definition dev_node_fails : platform :=
  mkPlatform (-1) false darwin_minor darwin_makedev
    (node_refusing_respond PMEM_DEV_MINOR).

(** ** The rollback, call by call *)

Ltac unfold_kern :=
  cbv beta iota zeta delta
    [bind ret load store when pmem_debug pmem_info pmem_warn pmem_error
     pmem_fatal host vars history fst snd].

Ltac flatten_history :=
  repeat rewrite <- app_assoc; rewrite ?app_nil_r; cbn [app].

Lemma pmem_cleanup_run (p : platform) (error : Z) (w : world) :
  pmem_cleanup p error w =
  (rollback_status p error w,
   mkWorld (vars w) (history w ++ rollback_calls p w)).
Proof.
  destruct w as [g t].
  unfold pmem_cleanup, rollback_status, rollback_calls, major_deregistration,
    removed_idx, later_cleanup, lock_group_release, node_removals.
  unfold_kern.
  destruct (truthy (pmem_devnode g)), (truthy (pmem_infonode g));
    unfold_kern; cbn [app]; flatten_history;
    (destruct (0 <? pmem_majorno g); unfold_kern; [
       match goal with
       | |- context [respond p ?h ?c =? _] =>
           destruct (respond p h c =? pmem_majorno g)
       end | ]);
    cbn [negb]; unfold_kern; destruct (truthy (pmem_tag g)),
      (truthy (pmem_sysctl_needs_cleanup g));
    unfold_kern; cbn [app]; flatten_history; reflexivity.
Qed.

Lemma calls_of_history {A : Type} (m : kern A) (w : world) (l : list call) :
  history (snd (m w)) = history w ++ l -> calls_of m w = l.
Proof.
  intros H. unfold calls_of. rewrite H, skipn_app, skipn_all, Nat.sub_diag.
  reflexivity.
Qed.

Lemma pmem_cleanup_calls (p : platform) (error : Z) (w : world) :
  calls_of (pmem_cleanup p error) w = rollback_calls p w.
Proof. apply calls_of_history. rewrite pmem_cleanup_run. reflexivity. Qed.

Lemma pmem_cleanup_status (p : platform) (error : Z) (w : world) :
  fst (pmem_cleanup p error w) = rollback_status p error w.
Proof. rewrite pmem_cleanup_run. reflexivity. Qed.

Lemma pmem_cleanup_vars (p : platform) (error : Z) (w : world) :
  vars (snd (pmem_cleanup p error w)) = vars w.
Proof. rewrite pmem_cleanup_run. reflexivity. Qed.

Lemma rollback_calls_releases (p : platform) (w : world) :
  filter is_release (rollback_calls p w) = rollback_releases (vars w).
Proof.
  unfold rollback_calls, rollback_releases, major_deregistration,
    node_removals, later_cleanup, lock_group_release.
  destruct (truthy (pmem_devnode (vars w))), (truthy (pmem_infonode (vars w))),
    (0 <? pmem_majorno (vars w)), (removed_idx p w =? pmem_majorno (vars w)),
    (truthy (pmem_tag (vars w))), (truthy (pmem_sysctl_needs_cleanup (vars w)));
    reflexivity.
Qed.

Lemma rollback_calls_order (p : platform) (w : world) :
  nodes_before_major (rollback_calls p w) = true /\
  forallb (fun c => negb (is_node_removal c))
    (major_deregistration p w ++ later_cleanup (vars w)) = true.
Proof.
  unfold rollback_calls, major_deregistration, node_removals, later_cleanup,
    lock_group_release.
  destruct (truthy (pmem_devnode (vars w))), (truthy (pmem_infonode (vars w))),
    (0 <? pmem_majorno (vars w)), (removed_idx p w =? pmem_majorno (vars w)),
    (truthy (pmem_tag (vars w))), (truthy (pmem_sysctl_needs_cleanup (vars w)));
    split; reflexivity.
Qed.

Lemma nodes_before_major_app (l1 l2 : list call) :
  forallb (fun c => negb (is_deregistration c)) l1 = true ->
  nodes_before_major (l1 ++ l2) = nodes_before_major l2.
Proof.
  induction l1 as [|c l1 IH]; intros H; [reflexivity|].
  cbn [forallb] in H. apply andb_true_iff in H. destruct H as [Hc Hl].
  cbn [app nodes_before_major].
  destruct (is_deregistration c); [discriminate|].
  rewrite IH by assumption. reflexivity.
Qed.

Lemma no_release_no_deregistration (l : list call) :
  no_release l = true ->
  forallb (fun c => negb (is_deregistration c)) l = true.
Proof.
  unfold no_release. rewrite !forallb_forall. intros H c Hc.
  specialize (H c Hc). destruct c; try reflexivity; discriminate.
Qed.

(** The lock groups are released last, by four calls made whatever the
    handles hold: the file has no null test of its own on them. *)
Lemma lock_groups_released_unguarded (p : platform) (e : Z) (w : world) :
  exists pre,
    calls_of (pmem_cleanup p e) w = pre ++ lock_group_release (vars w) /\
    forallb (fun c => match c with
                      | lck_grp_attr_free _ | lck_grp_free _ => false
                      | _ => true
                      end) pre = true.
Proof.
  rewrite pmem_cleanup_calls.
  unfold rollback_calls, major_deregistration, node_removals, later_cleanup.
  destruct (truthy (pmem_devnode (vars w))), (truthy (pmem_infonode (vars w))),
    (0 <? pmem_majorno (vars w)), (removed_idx p w =? pmem_majorno (vars w)),
    (truthy (pmem_tag (vars w))), (truthy (pmem_sysctl_needs_cleanup (vars w)));
    cbn [app];
    match goal with
    | |- exists pre, ?l = _ /\ _ =>
        let n := eval cbv in (List.length l - 4)%nat in
        exists (firstn n l); split; reflexivity
    end.
Qed.

(** The rollback never deregisters a major number that is not positive. *)
Lemma nonpositive_major_not_deregistered (p : platform) (e : Z) (w : world) :
  pmem_majorno (vars w) <= 0 ->
  existsb is_deregistration (calls_of (pmem_cleanup p e) w) = false.
Proof.
  intros H. rewrite pmem_cleanup_calls.
  unfold rollback_calls, major_deregistration, node_removals, later_cleanup,
    lock_group_release.
  destruct (Z.ltb_spec 0 (pmem_majorno (vars w))) as [Hpos|_]; [lia|].
  destruct (truthy (pmem_devnode (vars w))), (truthy (pmem_infonode (vars w))),
    (truthy (pmem_tag (vars w))), (truthy (pmem_sysctl_needs_cleanup (vars w)));
    reflexivity.
Qed.

(** ** The start sequence, branch by branch *)

Lemma snocs (l t : list call) : fold_left snoc l t = t ++ l.
Proof.
  revert t. induction l as [|c l IH]; intros t; cbn [fold_left].
  - symmetry. apply app_nil_r.
  - rewrite IH. unfold snoc. rewrite <- app_assoc. reflexivity.
Qed.

(** The calls [c1 .. cn] of a history written [((t ++ [c1]) ++ ..) ++ [cn]]. *)
Ltac snoc_list h t acc :=
  lazymatch h with
  | t => acc
  | ?h' ++ [?c] => snoc_list h' t constr:(c :: acc)
  end.

Ltac flatten_world t :=
  match goal with
  | |- context [mkWorld ?g ?h] =>
      let l := snoc_list h t constr:(@nil call) in
      change h with (fold_left snoc l t);
      rewrite (snocs l t)
  end.

Lemma status_test_true (r : Z) :
  negb (r =? KERN_SUCCESS) = true -> r <> KERN_SUCCESS.
Proof. destruct (Z.eqb_spec r KERN_SUCCESS); [discriminate|trivial]. Qed.

Lemma status_test_false (r : Z) :
  negb (r =? KERN_SUCCESS) = false -> r = KERN_SUCCESS.
Proof. destruct (Z.eqb_spec r KERN_SUCCESS); [trivial|discriminate]. Qed.

Lemma null_test_true (v : Z) : negb (truthy v) = true -> v = 0.
Proof. unfold truthy. destruct (Z.eqb_spec v 0); [trivial|discriminate]. Qed.

(** The statements write a history [t ++ pre]; the code built it call by
    call. *)
Ltac unflatten_history :=
  lazymatch goal with
  | |- respond _ (?t0 ++ ?pre) _ < 0 => rewrite <- (snocs pre t0)
  | |- respond _ (?t0 ++ ?pre) _ = 0 => rewrite <- (snocs pre t0)
  | |- _ = respond _ (?t0 ++ ?pre) _ => rewrite <- (snocs pre t0)
  end.

Ltac failed_step :=
  lazy beta iota zeta delta [step_failed last_call is_log];
  split;
  [ unflatten_history;
    first
      [ reflexivity
      | match goal with
        | H : (respond _ _ (cdevsw_add _) <? 0) = true |- _ =>
            apply Z.ltb_lt; exact H
        end
      | match goal with
        | H : negb (truthy (respond _ _ (devfs_make_node ?d _ _))) = true
          |- respond _ _ (devfs_make_node ?d _ _) = 0 =>
            exact (null_test_true _ H)
        end ]
  | first
      [ reflexivity
      | match goal with
        | H : negb (?r =? KERN_SUCCESS) = true |- ?r <> _ =>
            exact (status_test_true r H)
        end ] ].

Lemma start_outcome (p : platform) (w : world) :
  (fst (com_google_MacPmem_start p w) = KERN_SUCCESS /\
   exists acq g1,
     snd (com_google_MacPmem_start p w) = mkWorld g1 (history w ++ acq) /\
     no_release acq = true) \/
  (exists e acq g1,
     com_google_MacPmem_start p w =
       pmem_cleanup p e (mkWorld g1 (history w ++ acq)) /\
     e <> KERN_SUCCESS /\
     no_release acq = true /\
     step_failed p (history w) acq e).
Proof.
  destruct w as [g t].
  unfold com_google_MacPmem_start, pmem_init.
  unfold_kern.
  repeat match goal with
  | |- context [if ?b then _ else _] => destruct b eqn:?; unfold_kern
  end.
  all: try match goal with
         | H : negb (KERN_FAILURE =? KERN_SUCCESS) = _ |- _ =>
             cbv in H; discriminate H
         | H : negb (KERN_SUCCESS =? KERN_SUCCESS) = _ |- _ =>
             cbv in H; discriminate H
         end.
  all: flatten_world t.
  all: lazymatch goal with
       | |- (?L /\ _) \/ _ =>
         lazymatch L with
         | context [pmem_cleanup] =>
             right; eexists _, _, _; split; [reflexivity|];
             split;
             [ first
                 [ discriminate
                 | match goal with
                   | H : negb (?r =? KERN_SUCCESS) = true |- ?r <> _ =>
                       exact (status_test_true r H)
                   end ]
             | split; [reflexivity | failed_step] ]
         | _ =>
             left; split;
             [ match goal with
               | H : negb (?r =? KERN_SUCCESS) = false |- ?r = _ =>
                   exact (status_test_false r H)
               end
             | eexists _, _; split; reflexivity ]
         end
       end.
Qed.

(** ** The acquisition routine, branch by branch *)

Lemma null_test_false (v : Z) : negb (truthy v) = false -> v <> 0.
Proof. unfold truthy. destruct (Z.eqb_spec v 0); [discriminate|trivial]. Qed.

Lemma negb_true_false (b : bool) : negb b = true -> b = false.
Proof. destruct b; [discriminate|reflexivity]. Qed.

Lemma negb_false_true (b : bool) : negb b = false -> b = true.
Proof. destruct b; [reflexivity|discriminate]. Qed.

Ltac reduce_globals :=
  cbn [pmem_majorno pmem_tag pmem_rwlock_grp pmem_rwlock_grp_attr pmem_mutex_grp
       pmem_mutex_grp_attr pmem_sysctl_needs_cleanup pmem_infonode pmem_devnode
       set_pmem_majorno set_pmem_tag set_pmem_rwlock_grp
       set_pmem_rwlock_grp_attr set_pmem_mutex_grp set_pmem_mutex_grp_attr
       set_pmem_sysctl_needs_cleanup set_pmem_infonode set_pmem_devnode
       vars history].

(** Facts on the tests [pmem_init] made, as left in the context by the case
    analysis. *)
Ltac by_tests :=
  match goal with
  | H : (?M <? 0) = false |- 0 <= ?M => apply Z.ltb_ge; exact H
  | H : negb (truthy ?I) = false |- ?I <> 0 => exact (null_test_false _ H)
  | H : (?M <? 0) = true, Hm : 0 <= ?M |- _ =>
      apply Z.ltb_lt in H; exfalso;
      exact (Z.lt_irrefl _ (Z.lt_le_trans _ _ _ H Hm))
  | H : (?M <? 0) = false, Hm : ?M < 0 |- _ =>
      apply Z.ltb_ge in H; exfalso;
      exact (Z.lt_irrefl _ (Z.lt_le_trans _ _ _ Hm H))
  | H : negb (truthy ?I) = true, Hi : ?I <> 0 |- _ =>
      exfalso; exact (Hi (null_test_true _ H))
  | H : negb (truthy ?I) = false, Hi : ?I = 0 |- _ =>
      exfalso; exact (null_test_false _ H Hi)
  end.

Ltac rewrite_tests :=
  repeat match goal with
  | H : (_ <? 0) = _ |- _ => rewrite H
  | H : negb (truthy _) = true |- _ => rewrite (negb_true_false _ H)
  | H : negb (truthy _) = false |- _ => rewrite (negb_false_true _ H)
  end.

Lemma pmem_init_run (p : platform) (w : world) :
  exists st g' ic,
    pmem_init p w = (st, mkWorld g' (history w ++ ic)) /\
    no_release ic = true /\
    forallb (fun c => negb (is_sysctl c)) ic = true /\
    pmem_sysctl_needs_cleanup g' = pmem_sysctl_needs_cleanup (vars w) /\
    (st = KERN_SUCCESS \/ st = KERN_FAILURE) /\
    (st = KERN_SUCCESS <->
     0 <= pmem_majorno g' /\ pmem_infonode g' <> 0 /\ pmem_devnode g' <> 0) /\
    firstn 8 ic =
      [OSMalloc_Tagalloc pmem_tagname;
       lck_grp_attr_alloc_init;
       lck_grp_attr_setstat (pmem_rwlock_grp_attr g');
       lck_grp_alloc_init "pmem_rwlock" (pmem_rwlock_grp_attr g');
       lck_grp_attr_alloc_init;
       lck_grp_attr_setstat (pmem_mutex_grp_attr g');
       lck_grp_alloc_init "pmem_mutex" (pmem_mutex_grp_attr g');
       cdevsw_add (PMEM_MAJOR p)] /\
    filter (fun a => negb (is_setstat (fst a)))
      (firstn 8 (answers p (history w) ic)) =
      [(OSMalloc_Tagalloc pmem_tagname, pmem_tag g');
       (lck_grp_attr_alloc_init, pmem_rwlock_grp_attr g');
       (lck_grp_alloc_init "pmem_rwlock" (pmem_rwlock_grp_attr g'),
        pmem_rwlock_grp g');
       (lck_grp_attr_alloc_init, pmem_mutex_grp_attr g');
       (lck_grp_alloc_init "pmem_mutex" (pmem_mutex_grp_attr g'),
        pmem_mutex_grp g');
       (cdevsw_add (PMEM_MAJOR p), pmem_majorno g')] /\
    filter (fun a => is_make_node (fst a)) (answers p (history w) ic) =
      created_nodes p g' /\
    filter (fun a => is_registration (fst a)) (answers p (history w) ic) =
      [(cdevsw_add (PMEM_MAJOR p), pmem_majorno g')] /\
    (pmem_majorno g' < 0 ->
     pmem_infonode g' = pmem_infonode (vars w) /\
     pmem_devnode g' = pmem_devnode (vars w)) /\
    (pmem_infonode g' = 0 -> pmem_devnode g' = pmem_devnode (vars w)).
Proof.
  destruct w as [g t].
  unfold pmem_init. unfold_kern.
  repeat match goal with
  | |- context [if ?b then _ else _] => destruct b eqn:?; unfold_kern
  end.
  all: flatten_world t.
  all: eexists _, _, _; split; [reflexivity|].
  all: split; [reflexivity|].
  all: split; [reflexivity|].
  all: split; [reflexivity|].
  all: split; [first [left; reflexivity | right; reflexivity]|].
  all: unfold created_nodes, info_node_call, dev_node_call; reduce_globals.
  all: split;
    [ split;
      [ intros E; first [ discriminate E | repeat split; by_tests ]
      | intros (Hm & Hi & Hd); first [ reflexivity | by_tests ] ] |].
  all: split; [ first [reflexivity | idtac "FIRSTN"] |].
  all: split; [ first [reflexivity | idtac "FIRSTN2"] |].
  all: split; [ rewrite_tests; first [reflexivity | idtac "FILTER"] |].
  all: split; [ first [reflexivity | idtac "REG"] |].
  all: split; intros; first [ reflexivity | split; reflexivity | by_tests | idtac "UNCH" ].
Qed.

Lemma pmem_init_calls (p : platform) (w : world) :
  history (snd (pmem_init p w)) = history w ++ calls_of (pmem_init p) w.
Proof.
  destruct (pmem_init_run p w) as (st & g' & ic & Hrun & _).
  rewrite (calls_of_history _ w ic); rewrite Hrun; reflexivity.
Qed.

(** [com_google_MacPmem_start] around [pmem_init]: it either succeeds, with
    the sysctl registered last, or gives up at one of three places and
    hands the error to the rollback. *)
Lemma start_run (p : platform) (w : world) :
  let w0 := mkWorld (vars w) (history w ++ [loaded_msg]) in
  let gi := vars (snd (pmem_init p w0)) in
  let t1 := history w ++ loaded_msg :: calls_of (pmem_init p) w0 in
  (fst (pmem_init p w0) = KERN_SUCCESS /\
   respond p t1 pmem_meta_init = KERN_SUCCESS /\
   respond p (t1 ++ [pmem_meta_init]) pmem_pte_init = KERN_SUCCESS /\
   com_google_MacPmem_start p w =
     (KERN_SUCCESS,
      mkWorld (set_pmem_sysctl_needs_cleanup 1 gi)
        (t1 ++ [pmem_meta_init; pmem_pte_init; sysctl_register_oid]))) \/
  (exists e k,
     e <> KERN_SUCCESS /\
     com_google_MacPmem_start p w =
       pmem_cleanup p e (mkWorld gi (t1 ++ calls_before_rollback k)) /\
     match k with
     | at_init => fst (pmem_init p w0) = KERN_FAILURE /\ e = KERN_FAILURE
     | at_meta =>
         fst (pmem_init p w0) = KERN_SUCCESS /\
         e = respond p t1 pmem_meta_init
     | at_pte =>
         fst (pmem_init p w0) = KERN_SUCCESS /\
         respond p t1 pmem_meta_init = KERN_SUCCESS /\
         e = respond p (t1 ++ [pmem_meta_init]) pmem_pte_init
     end).
Proof.
  intros w0 gi t1.
  assert (Hh : history (snd (pmem_init p w0)) = t1).
  { rewrite pmem_init_calls. subst t1 w0. cbn [history].
    rewrite <- app_assoc. reflexivity. }
  destruct (pmem_init_run p w0) as (st & g' & ic & Hrun & _ & _ & _ & Hst & _).
  assert (Hgi : gi = g') by (subst gi; rewrite Hrun; reflexivity).
  rewrite Hrun in Hh. cbn [snd history] in Hh.
  assert (Hstart : com_google_MacPmem_start p w =
                   (let (error, w1) := pmem_init p w0 in
                    (if negb (error =? KERN_SUCCESS)
                     then pmem_fatal p "pmem_init() failed." [] ;;
                          pmem_cleanup p error
                     else
                       error <- host p pmem_meta_init ;;
                       if negb (error =? KERN_SUCCESS)
                       then pmem_fatal p "Could not initialize pmem meta." [] ;;
                            pmem_cleanup p error
                       else
                         error <- host p pmem_pte_init ;;
                         if negb (error =? KERN_SUCCESS)
                         then pmem_fatal p
                                "Could not initialize PTE mmap module." [] ;;
                              pmem_cleanup p error
                         else
                           host p sysctl_register_oid ;;
                           store set_pmem_sysctl_needs_cleanup 1 ;;
                           ret error) w1)) by reflexivity.
  rewrite Hstart, Hrun, Hgi. clear Hstart.
  generalize dependent (history w0 ++ ic). intros h Hh. subst h.
  destruct Hst as [Hst|Hst]; subst st.
  - change (negb (KERN_SUCCESS =? KERN_SUCCESS)) with false. unfold_kern.
    destruct (Z.eqb_spec (respond p t1 pmem_meta_init) KERN_SUCCESS)
      as [Hm|Hm]; cbn [negb]; unfold_kern.
    + destruct (Z.eqb_spec (respond p (t1 ++ [pmem_meta_init]) pmem_pte_init)
                  KERN_SUCCESS) as [Hp|Hp]; cbn [negb]; unfold_kern.
      * left. split; [reflexivity|]. split; [exact Hm|]. split; [exact Hp|].
        rewrite Hp. repeat rewrite <- app_assoc. reflexivity.
      * right. exists (respond p (t1 ++ [pmem_meta_init]) pmem_pte_init), at_pte.
        split; [exact Hp|]. split.
        -- cbn [calls_before_rollback]. fold pte_failed_msg.
           repeat rewrite <- app_assoc. reflexivity.
        -- split; [reflexivity|]. split; [exact Hm | reflexivity].
    + right. exists (respond p t1 pmem_meta_init), at_meta.
      split; [exact Hm|]. split.
      * cbn [calls_before_rollback]. fold meta_failed_msg.
        repeat rewrite <- app_assoc. reflexivity.
      * split; reflexivity.
  - change (negb (KERN_FAILURE =? KERN_SUCCESS)) with true. unfold_kern.
    right. exists KERN_FAILURE, at_init.
    split; [discriminate|]. split; [reflexivity|]. split; reflexivity.
Qed.

(** ** Transcripts *)

Lemma answers_app (p : platform) (t l1 l2 : list call) :
  answers p t (l1 ++ l2) = answers p t l1 ++ answers p (t ++ l1) l2.
Proof.
  revert t. induction l1 as [|c l1 IH]; intros t; cbn [app answers].
  - rewrite app_nil_r. reflexivity.
  - rewrite IH, <- app_assoc. reflexivity.
Qed.

Lemma answers_filter_none (p : platform) (f : call -> bool) (t l : list call) :
  forallb (fun c => negb (f c)) l = true ->
  filter (fun a => f (fst a)) (answers p t l) = [].
Proof.
  revert t. induction l as [|c l IH]; intros t H; [reflexivity|].
  cbn [forallb] in H. apply andb_true_iff in H. destruct H as [Hc Hl].
  cbn [answers filter fst]. apply negb_true_false in Hc. rewrite Hc.
  apply IH. exact Hl.
Qed.

Lemma filter_none (f : call -> bool) (l : list call) :
  forallb (fun c => negb (f c)) l = true -> filter f l = [].
Proof.
  induction l as [|c l IH]; intros H; [reflexivity|].
  cbn [forallb] in H. apply andb_true_iff in H. destruct H as [Hc Hl].
  cbn [filter]. apply negb_true_false in Hc. rewrite Hc. exact (IH Hl).
Qed.

Lemma no_release_app (l1 l2 : list call) :
  no_release (l1 ++ l2) = no_release l1 && no_release l2.
Proof. apply forallb_app. Qed.

Lemma rollback_status_failure (p : platform) (e : Z) (w : world) :
  e <> KERN_SUCCESS -> rollback_status p e w <> KERN_SUCCESS.
Proof.
  intros He. unfold rollback_status.
  destruct (0 <? pmem_majorno (vars w)); [|exact He].
  destruct (removed_idx p w =? pmem_majorno (vars w)); [exact He|discriminate].
Qed.

(** The rollback acquires nothing. *)
Lemma rollback_calls_acquire_nothing (p : platform) (w : world) :
  forallb (fun c => negb (is_make_node c)) (rollback_calls p w) = true /\
  forallb (fun c => negb (is_registration c)) (rollback_calls p w) = true /\
  filter is_sysctl (rollback_calls p w) =
    (if truthy (pmem_sysctl_needs_cleanup (vars w))
     then [sysctl_unregister_oid] else []) /\
  filter is_node_removal (rollback_calls p w) = node_removals (vars w) /\
  filter is_deregistration (rollback_calls p w) =
    (if 0 <? pmem_majorno (vars w)
     then [cdevsw_remove (pmem_majorno (vars w))] else []) /\
  filter (fun c => negb (is_release c)) (rollback_calls p w) =
    (if (0 <? pmem_majorno (vars w)) &&
        negb (removed_idx p w =? pmem_majorno (vars w))
     then [pmem_log Error cdevsw_mismatch_fmt
             [arg_d (pmem_majorno (vars w)); arg_d (removed_idx p w)]]
     else []).
Proof.
  unfold rollback_calls, major_deregistration, node_removals, later_cleanup,
    lock_group_release.
  destruct (truthy (pmem_devnode (vars w))), (truthy (pmem_infonode (vars w))),
    (0 <? pmem_majorno (vars w)), (removed_idx p w =? pmem_majorno (vars w)),
    (truthy (pmem_tag (vars w))), (truthy (pmem_sysctl_needs_cleanup (vars w)));
    repeat split.
Qed.

Lemma calls_before_rollback_plain (k : gave_up) :
  no_release (calls_before_rollback k) = true /\
  forallb (fun c => negb (is_make_node c)) (calls_before_rollback k) = true /\
  forallb (fun c => negb (is_registration c)) (calls_before_rollback k) = true /\
  forallb (fun c => negb (is_sysctl c)) (calls_before_rollback k) = true.
Proof. destruct k; repeat split. Qed.

(** What a failing start has done: the message, [pmem_init], the calls up
    to the failure, the rollback. *)
Lemma failed_start_calls (p : platform) (w : world) :
  fst (com_google_MacPmem_start p w) <> KERN_SUCCESS ->
  let w0 := mkWorld (vars w) (history w ++ [loaded_msg]) in
  let gi := vars (snd (pmem_init p w0)) in
  let ic := calls_of (pmem_init p) w0 in
  exists k,
    let w1 := mkWorld gi (history w ++ loaded_msg :: ic ++
                          calls_before_rollback k) in
    vars (snd (com_google_MacPmem_start p w)) = gi /\
    calls_of (com_google_MacPmem_start p) w =
      loaded_msg :: ic ++ calls_before_rollback k ++ rollback_calls p w1.
Proof.
  intros Hfail w0 gi ic.
  destruct (start_run p w) as [(_ & _ & _ & Hrun)|(e & k & He & Hrun & _)].
  - rewrite Hrun in Hfail. contradiction Hfail. reflexivity.
  - exists k. cbv zeta. fold w0 in Hrun. fold gi in Hrun. fold ic in Hrun.
    replace ((history w ++ loaded_msg :: ic) ++ calls_before_rollback k)
      with (history w ++ loaded_msg :: ic ++ calls_before_rollback k) in Hrun
      by (rewrite <- app_assoc; reflexivity).
    split.
    + rewrite Hrun. apply pmem_cleanup_vars.
    + apply calls_of_history. rewrite Hrun, pmem_cleanup_run.
      cbn [snd history]. rewrite <- app_assoc. cbn [app].
      rewrite <- app_assoc. reflexivity.
Qed.

(** What a successful start has done and left. *)
Lemma successful_start_calls (p : platform) (w : world) :
  fst (com_google_MacPmem_start p w) = KERN_SUCCESS ->
  let w0 := mkWorld (vars w) (history w ++ [loaded_msg]) in
  let gi := vars (snd (pmem_init p w0)) in
  let ic := calls_of (pmem_init p) w0 in
  let t1 := history w ++ loaded_msg :: ic in
  fst (pmem_init p w0) = KERN_SUCCESS /\
  respond p t1 pmem_meta_init = KERN_SUCCESS /\
  respond p (t1 ++ [pmem_meta_init]) pmem_pte_init = KERN_SUCCESS /\
  snd (com_google_MacPmem_start p w) =
    mkWorld (set_pmem_sysctl_needs_cleanup 1 gi)
      (t1 ++ [pmem_meta_init; pmem_pte_init; sysctl_register_oid]) /\
  calls_of (com_google_MacPmem_start p) w =
    loaded_msg :: ic ++ [pmem_meta_init; pmem_pte_init; sysctl_register_oid].
Proof.
  intros Hok w0 gi ic t1.
  destruct (start_run p w) as [(Hi & Hm & Hp & Hrun)|(e & k & He & Hrun & _)].
  - fold w0 in Hi, Hm, Hp, Hrun. fold gi in Hrun. fold ic in Hm, Hp, Hrun.
    fold t1 in Hm, Hp, Hrun.
    split; [exact Hi|]. split; [exact Hm|]. split; [exact Hp|].
    split; [rewrite Hrun; reflexivity|].
    apply calls_of_history. rewrite Hrun. cbn [snd history]. subst t1.
    rewrite <- app_assoc. reflexivity.
  - exfalso. rewrite Hrun, pmem_cleanup_status in Hok.
    exact (rollback_status_failure p e _ He Hok).
Qed.

Lemma truthy_true (v : Z) : v <> 0 -> truthy v = true.
Proof. unfold truthy. destruct (Z.eqb_spec v 0); [contradiction|reflexivity]. Qed.

Lemma truthy_false (v : Z) : truthy v = false -> v = 0.
Proof. unfold truthy. destruct (Z.eqb_spec v 0); [trivial|discriminate]. Qed.

Lemma truthy_true_nonnull (v : Z) : truthy v = true -> v <> 0.
Proof. unfold truthy. destruct (Z.eqb_spec v 0); [discriminate|trivial]. Qed.

Lemma In_node_removals (g : globals) (n : Z) :
  In (devfs_remove n) (node_removals g) <->
  (n = pmem_devnode g /\ n <> 0) \/ (n = pmem_infonode g /\ n <> 0).
Proof.
  unfold node_removals.
  destruct (truthy (pmem_devnode g)) eqn:Hd, (truthy (pmem_infonode g)) eqn:Hi;
    cbn [app In]; split; intros H.
  all: repeat match goal with
       | H : _ \/ _ |- _ => destruct H
       | H : _ /\ _ |- _ => destruct H
       | H : False |- _ => contradiction
       | H : devfs_remove _ = devfs_remove _ |- _ => injection H as H; subst
       | H : truthy _ = true |- _ => apply truthy_true_nonnull in H
       | H : truthy _ = false |- _ => apply truthy_false in H
       end; subst; try congruence; try (left; split; congruence);
       try (right; split; congruence); try (left; congruence);
       try (right; left; congruence).
Qed.

Lemma pmem_init_leaves_modules_alone (p : platform) (w : world) :
  forallb (fun c => negb (is_module_init c)) (calls_of (pmem_init p) w) = true.
Proof.
  assert (H : exists st g' ic,
            pmem_init p w = (st, mkWorld g' (history w ++ ic)) /\
            forallb (fun c => negb (is_module_init c)) ic = true).
  { destruct w as [g t].
    unfold pmem_init. unfold_kern.
    repeat match goal with
    | |- context [if ?b then _ else _] => destruct b eqn:?; unfold_kern
    end.
    all: flatten_world t.
    all: eexists _, _, _; split; reflexivity. }
  destruct H as (st & g' & ic & Hrun & H).
  rewrite (calls_of_history _ w ic) by (rewrite Hrun; reflexivity).
  exact H.
Qed.

Lemma rollback_calls_leave_modules_alone (p : platform) (w : world) :
  forallb (fun c => negb (is_module_init c)) (rollback_calls p w) = true /\
  filter is_lock_free (rollback_calls p w) = lock_group_release (vars w).
Proof.
  unfold rollback_calls, major_deregistration, node_removals, later_cleanup,
    lock_group_release.
  destruct (truthy (pmem_devnode (vars w))), (truthy (pmem_infonode (vars w))),
    (0 <? pmem_majorno (vars w)), (removed_idx p w =? pmem_majorno (vars w)),
    (truthy (pmem_tag (vars w))), (truthy (pmem_sysctl_needs_cleanup (vars w)));
    split; reflexivity.
Qed.

(** ** A failing start, step by step *)

Lemma init_fails_at (p : platform) (w : world) (k : failed_step) :
  gave_up_at k = at_init -> fails_at p w k ->
  fst (pmem_init p (init_world w)) = KERN_FAILURE.
Proof.
  intros Hk H. unfold fails_at in H.
  destruct (pmem_init_run p (init_world w))
    as (st & gi & ic & Hrun & _ & _ & _ & Hst & Hiff & _ & _ & Hmk & Hreg & _).
  rewrite (calls_of_history _ (init_world w) ic) in H
    by (rewrite Hrun; reflexivity).
  rewrite Hrun. cbn [fst].
  destruct Hst as [Hst|Hst]; [|exact Hst]. exfalso.
  apply Hiff in Hst. destruct Hst as (Hmaj & Hinfo & Hdev).
  destruct k; try discriminate Hk.
  - destruct H as (v & Hin & Hv).
    assert (Hin' : In (cdevsw_add (PMEM_MAJOR p), v)
                     (filter (fun a => is_registration (fst a))
                        (answers p (history (init_world w)) ic)))
      by (apply filter_In; split; [exact Hin|reflexivity]).
    rewrite Hreg in Hin'. destruct Hin' as [E|[]].
    injection E as E. lia.
  - destruct H as (d & pm & Hin).
    assert (Hin' : In (devfs_make_node d pm pmem_infoname, 0)
                     (filter (fun a => is_make_node (fst a))
                        (answers p (history (init_world w)) ic)))
      by (apply filter_In; split; [exact Hin|reflexivity]).
    rewrite Hmk in Hin'. unfold created_nodes, info_node_call, dev_node_call in Hin'.
    destruct (pmem_majorno gi <? 0); [destruct Hin'|].
    destruct Hin' as [E|Hin'].
    + injection E as _ _ E. congruence.
    + destruct (truthy (pmem_infonode gi)); [|destruct Hin'].
      destruct Hin' as [E|[]]. discriminate E.
  - destruct H as (d & pm & Hin).
    assert (Hin' : In (devfs_make_node d pm pmem_devname, 0)
                     (filter (fun a => is_make_node (fst a))
                        (answers p (history (init_world w)) ic)))
      by (apply filter_In; split; [exact Hin|reflexivity]).
    rewrite Hmk in Hin'. unfold created_nodes, info_node_call, dev_node_call in Hin'.
    destruct (pmem_majorno gi <? 0); [destruct Hin'|].
    destruct Hin' as [E|Hin'].
    + discriminate E.
    + destruct (truthy (pmem_infonode gi)); [|destruct Hin'].
      destruct Hin' as [E|[]]. injection E as _ _ E. congruence.
Qed.

(** A start in which step [k] fails hands that step's error to the
    rollback, once, and returns what the rollback returns. *)
Lemma start_fails_at (p : platform) (w : world) (k : failed_step) :
  fails_at p w k ->
  com_google_MacPmem_start p w =
    pmem_cleanup p (error_of p w k) (rollback_world p w k) /\
  error_of p w k <> KERN_SUCCESS.
Proof.
  intros H.
  assert (Hinit : match gave_up_at k with
                  | at_init => fst (pmem_init p (init_world w)) = KERN_FAILURE
                  | _ => fst (pmem_init p (init_world w)) = KERN_SUCCESS
                  end).
  { destruct k; cbn [gave_up_at].
    - exact (init_fails_at p w registration_refused eq_refl H).
    - exact (init_fails_at p w info_node_refused eq_refl H).
    - exact (init_fails_at p w dev_node_refused eq_refl H).
    - apply H.
    - apply H. }
  unfold rollback_world, error_of.
  destruct (start_run p w) as [(Hi & Hm & Hp & _)|(e & k' & He & Hrun & Hk)].
  - exfalso.
    change (fst (pmem_init p (init_world w)) = KERN_SUCCESS) in Hi.
    change (meta_answer p w = KERN_SUCCESS) in Hm.
    change (pte_answer p w = KERN_SUCCESS) in Hp.
    destruct k; cbn [gave_up_at] in Hinit;
      try (rewrite Hi in Hinit; discriminate Hinit).
    + apply H. exact Hm.
    + apply H. exact Hp.
  - change (com_google_MacPmem_start p w =
            pmem_cleanup p e
              (mkWorld (init_globals p w)
                 (init_history p w ++ calls_before_rollback k'))) in Hrun.
    assert (Hk' : match k' with
                  | at_init =>
                      fst (pmem_init p (init_world w)) = KERN_FAILURE /\
                      e = KERN_FAILURE
                  | at_meta =>
                      fst (pmem_init p (init_world w)) = KERN_SUCCESS /\
                      e = meta_answer p w
                  | at_pte =>
                      fst (pmem_init p (init_world w)) = KERN_SUCCESS /\
                      meta_answer p w = KERN_SUCCESS /\
                      e = pte_answer p w
                  end) by exact Hk.
    clear Hk.
    destruct k', k; cbn [gave_up_at] in Hinit |- *;
      cbv beta iota zeta delta [fails_at] in H;
      repeat match goal with
             | H : _ /\ _ |- _ => destruct H
             end;
      try (exfalso;
           match goal with
           | H1 : ?x = KERN_FAILURE, H2 : ?x = KERN_SUCCESS |- _ =>
               rewrite H1 in H2; discriminate H2
           end);
      try (exfalso; congruence); subst e;
      cbv beta iota delta [gave_up_at]; split; assumption.
Qed.

(** ** A start, whatever its outcome *)

Lemma answers_length (p : platform) (t l : list call) :
  List.length (answers p t l) = List.length l.
Proof.
  revert t. induction l as [|c l IH]; intros t; [reflexivity|].
  cbn [answers List.length]. rewrite IH. reflexivity.
Qed.

Lemma firstn_app_full {A : Type} (n : nat) (l r l' : list A) :
  firstn n l = l' -> List.length l' = n -> firstn n (l ++ r) = l'.
Proof.
  intros H Hl. rewrite firstn_app.
  assert (Hn : (n <= List.length l)%nat).
  { rewrite <- H, length_firstn in Hl. lia. }
  replace (n - List.length l)%nat with 0%nat by lia.
  cbn [firstn]. rewrite app_nil_r. exact H.
Qed.

(** The calls of a start begin with the message and the calls of
    [pmem_init], and only the sysctl flag can differ from the globals
    [pmem_init] left. *)
Lemma start_calls_prefix (p : platform) (w : world) :
  exists rest,
    calls_of (com_google_MacPmem_start p) w =
      loaded_msg :: calls_of (pmem_init p) (init_world w) ++ rest /\
    (vars (snd (com_google_MacPmem_start p w)) = init_globals p w \/
     vars (snd (com_google_MacPmem_start p w)) =
       set_pmem_sysctl_needs_cleanup 1 (init_globals p w)).
Proof.
  destruct (Z.eq_dec (fst (com_google_MacPmem_start p w)) KERN_SUCCESS)
    as [Hok|Hfail].
  - destruct (successful_start_calls p w Hok) as (_ & _ & _ & Hw & Hc).
    eexists. split; [exact Hc|]. right. rewrite Hw. reflexivity.
  - destruct (failed_start_calls p w Hfail) as (k & Hv & Hc).
    eexists. split; [exact Hc|]. left. exact Hv.
Qed.

Lemma start_status (p : platform) (w : world) :
  (fst (com_google_MacPmem_start p w) =? KERN_SUCCESS) =
  (fst (pmem_init p (init_world w)) =? KERN_SUCCESS) &&
  (meta_answer p w =? KERN_SUCCESS) && (pte_answer p w =? KERN_SUCCESS).
Proof.
  destruct (start_run p w) as [(Hi & Hm & Hp & Hrun)|(e & k & He & Hrun & Hk)].
  - change (fst (pmem_init p (init_world w)) = KERN_SUCCESS) in Hi.
    change (meta_answer p w = KERN_SUCCESS) in Hm.
    change (pte_answer p w = KERN_SUCCESS) in Hp.
    rewrite Hrun, Hi, Hm, Hp. reflexivity.
  - assert (Hfail : (fst (com_google_MacPmem_start p w) =? KERN_SUCCESS) =
                    false).
    { apply Z.eqb_neq. rewrite Hrun, pmem_cleanup_status.
      apply rollback_status_failure. exact He. }
    rewrite Hfail. apply Z.eqb_neq in He.
    destruct k.
    + destruct Hk as [Hi _].
      change (fst (pmem_init p (init_world w)) = KERN_FAILURE) in Hi.
      rewrite Hi. reflexivity.
    + destruct Hk as [Hi Hm].
      change (fst (pmem_init p (init_world w)) = KERN_SUCCESS) in Hi.
      change (e = meta_answer p w) in Hm.
      rewrite Hi, <- Hm, He. reflexivity.
    + destruct Hk as (Hi & Hm & Hp).
      change (fst (pmem_init p (init_world w)) = KERN_SUCCESS) in Hi.
      change (meta_answer p w = KERN_SUCCESS) in Hm.
      change (e = pte_answer p w) in Hp.
      rewrite Hi, Hm, <- Hp, He. reflexivity.
Qed.

Lemma pmem_init_status_test (p : platform) (w : world) :
  let g' := vars (snd (pmem_init p w)) in
  (fst (pmem_init p w) =? KERN_SUCCESS) =
  (0 <=? pmem_majorno g') && truthy (pmem_infonode g') &&
  truthy (pmem_devnode g').
Proof.
  destruct (pmem_init_run p w)
    as (st & g' & ic & Hrun & _ & _ & _ & Hst & Hiff & _).
  cbv zeta. rewrite Hrun. cbn [fst snd vars].
  destruct (Z.eqb_spec st KERN_SUCCESS) as [E|E].
  - apply Hiff in E. destruct E as (Hm & Hi & Hd).
    apply Z.leb_le in Hm. rewrite Hm, (truthy_true _ Hi), (truthy_true _ Hd).
    reflexivity.
  - symmetry. apply not_true_is_false. intros H.
    apply andb_true_iff in H. destruct H as [H Hd].
    apply andb_true_iff in H. destruct H as [Hm Hi].
    apply E, Hiff. split; [apply Z.leb_le; exact Hm|].
    split; apply truthy_true_nonnull; assumption.
Qed.

(** On a kernel that accepts the registration, makes both nodes and whose
    modules initialise, the start succeeds. *)
Lemma start_succeeds_on_a_willing_kernel (p : platform) (w : world) :
  (forall t i, 0 <= respond p t (cdevsw_add i)) ->
  (forall t d pm n, respond p t (devfs_make_node d pm n) <> 0) ->
  (forall t, respond p t pmem_meta_init = KERN_SUCCESS) ->
  (forall t, respond p t pmem_pte_init = KERN_SUCCESS) ->
  fst (com_google_MacPmem_start p w) = KERN_SUCCESS.
Proof.
  intros Hmajor Hnode Hmeta Hpte.
  destruct (start_outcome p w) as [[Hok _]
                                  |(e & acq & g1 & _ & He & _ & Hstep)];
    [exact Hok|].
  exfalso. unfold step_failed in Hstep.
  destruct (last_call acq) as [[pre c]|]; [|contradiction].
  destruct c; try contradiction.
  - destruct Hstep as [Hneg _]. specialize (Hmajor (history w ++ pre) index).
    lia.
  - destruct Hstep as [Hnull _]. exact (Hnode _ _ _ _ Hnull).
  - destruct Hstep as [Heq Hne]. rewrite Hmeta in Heq. contradiction.
  - destruct Hstep as [Heq Hne]. rewrite Hpte in Heq. contradiction.
Qed.

(** * Device dispatch *)

(** C8. Dispatch goes by the minor number alone: with [PMEM_DEV_MINOR], open
    and close succeed without calling anything and read goes to
    [pmem_read_rogue]; with [PMEM_INFO_MINOR], the three go to
    [pmem_openmeta], [pmem_closemeta] and [pmem_readmeta], whose status they
    return; with any other minor they return [KERN_FAILURE] after one
    warning, call no collaborator and leave the static variables as they
    were. *)
Theorem dispatch_by_minor (p : platform) (dev uio : Z) (w : world) :
  (minor p dev = PMEM_DEV_MINOR ->
     pmem_open p dev w = (KERN_SUCCESS, w) /\
     pmem_close p dev w = (KERN_SUCCESS, w) /\
     pmem_read p dev uio w =
       (respond p (history w) (pmem_read_rogue uio),
        mkWorld (vars w) (history w ++ [pmem_read_rogue uio]))) /\
  (minor p dev = PMEM_INFO_MINOR ->
     pmem_open p dev w =
       (respond p (history w) pmem_openmeta,
        mkWorld (vars w) (history w ++ [pmem_openmeta])) /\
     pmem_close p dev w =
       (respond p (history w) pmem_closemeta,
        mkWorld (vars w) (history w ++ [pmem_closemeta])) /\
     pmem_read p dev uio w =
       (respond p (history w) (pmem_readmeta uio),
        mkWorld (vars w) (history w ++ [pmem_readmeta uio]))) /\
  (minor p dev <> PMEM_DEV_MINOR -> minor p dev <> PMEM_INFO_MINOR ->
     let w' :=
       mkWorld (vars w)
         (history w ++
          [pmem_log Warn "Unknown minor device number %d."
             [arg_d (minor p dev)]]) in
     pmem_open p dev w = (KERN_FAILURE, w') /\
     pmem_close p dev w = (KERN_FAILURE, w') /\
     pmem_read p dev uio w = (KERN_FAILURE, w') /\
     existsb is_collaborator (calls_of (pmem_open p dev) w) = false /\
     existsb is_collaborator (calls_of (pmem_close p dev) w) = false /\
     existsb is_collaborator (calls_of (pmem_read p dev uio) w) = false).
Proof.
  unfold pmem_open, pmem_close, pmem_read, calls_of.
  split; [|split].
  - intros Hdev. rewrite Hdev. repeat split.
  - intros Hinfo. rewrite Hinfo. repeat split.
  - intros Hdev Hinfo.
    destruct (Z.eqb_spec (minor p dev) PMEM_DEV_MINOR) as [E|_];
      [contradiction|].
    destruct (Z.eqb_spec (minor p dev) PMEM_INFO_MINOR) as [E|_];
      [contradiction|].
    cbv zeta. unfold_kern.
    rewrite skipn_app, skipn_all, Nat.sub_diag.
    repeat split.
Qed.

Lemma dispatch_by_minor_witness :
  pmem_open healthy (darwin_makedev 17 1) (started healthy) =
    (KERN_SUCCESS, started healthy) /\
  fst (pmem_read healthy (darwin_makedev 17 2) 512 (started healthy)) =
    respond healthy (history (started healthy)) (pmem_readmeta 512) /\
  fst (pmem_close healthy (darwin_makedev 17 3) (started healthy)) =
    KERN_FAILURE.
Proof.
  split; [|split].
  - apply (dispatch_by_minor healthy (darwin_makedev 17 1) 512 (started healthy)).
    reflexivity.
  - destruct (dispatch_by_minor healthy (darwin_makedev 17 2) 512
                (started healthy)) as [_ [H _]].
    destruct (H eq_refl) as [_ [_ Hr]]. rewrite Hr. reflexivity.
  - destruct (dispatch_by_minor healthy (darwin_makedev 17 3) 512
                (started healthy)) as [_ [_ H]].
    assert (H1 : minor healthy (darwin_makedev 17 3) <> PMEM_DEV_MINOR)
      by (vm_compute; discriminate).
    assert (H2 : minor healthy (darwin_makedev 17 3) <> PMEM_INFO_MINOR)
      by (vm_compute; discriminate).
    destruct (H H1 H2) as [_ [Hc _]]. rewrite Hc. reflexivity.
Defined.

(** * The rollback routine *)

(** C10. The status [pmem_cleanup] returns differs from its argument only
    through the check on what [cdevsw_remove] answers: in every world and on
    every platform, if [pmem_majorno] is not positive, or [cdevsw_remove]
    answers [pmem_majorno], then [pmem_cleanup e] returns [e], whatever the
    other calls answer. *)
Theorem cleanup_status_changed_by_echo_check_only
    (p : platform) (e : Z) (w : world) :
  pmem_majorno (vars w) <= 0 \/ removed_idx p w = pmem_majorno (vars w) ->
  fst (pmem_cleanup p e w) = e.
Proof.
  intros H. rewrite pmem_cleanup_status. unfold rollback_status.
  destruct (Z.ltb_spec 0 (pmem_majorno (vars w))) as [Hpos|Hneg];
    [|reflexivity].
  destruct H as [H|H]; [lia|].
  rewrite H, Z.eqb_refl. reflexivity.
Qed.

Lemma cleanup_status_changed_by_echo_check_only_witness :
  fst (pmem_cleanup healthy 3 (started healthy)) = 3 /\
  fst (pmem_cleanup bad_echo 3 (initial_world bad_echo)) = 3.
Proof.
  split.
  - apply (cleanup_status_changed_by_echo_check_only healthy 3 (started healthy)).
    right. reflexivity.
  - apply (cleanup_status_changed_by_echo_check_only bad_echo 3
             (initial_world bad_echo)).
    left. vm_compute. discriminate.
Defined.

(** C6. When the major number is positive and [cdevsw_remove] answers
    another number, [com_google_MacPmem_stop] returns [KERN_FAILURE], which
    is not [KERN_SUCCESS], although it passes [KERN_SUCCESS] to the rollback;
    and after the error message the rollback goes on with all its remaining
    calls: tag, both module cleanups, sysctl, lock groups. *)
Theorem stop_reports_deregistration_mismatch (p : platform) (w : world) :
  let w0 :=
    mkWorld (vars w) (history w ++ [pmem_log Info "Unloading MacPmem" []]) in
  0 < pmem_majorno (vars w) ->
  removed_idx p w0 <> pmem_majorno (vars w) ->
  fst (com_google_MacPmem_stop p w) = KERN_FAILURE /\
  KERN_FAILURE <> KERN_SUCCESS /\
  calls_of (com_google_MacPmem_stop p) w =
    pmem_log Info "Unloading MacPmem" [] ::
    node_removals (vars w) ++
    [cdevsw_remove (pmem_majorno (vars w));
     pmem_log Error cdevsw_mismatch_fmt
       [arg_d (pmem_majorno (vars w)); arg_d (removed_idx p w0)]] ++
    later_cleanup (vars w).
Proof.
  intros w0 Hpos Hecho.
  assert (Hrun : com_google_MacPmem_stop p w = pmem_cleanup p KERN_SUCCESS w0)
    by reflexivity.
  apply Z.ltb_lt in Hpos. apply Z.eqb_neq in Hecho.
  split; [|split].
  - rewrite Hrun, pmem_cleanup_status. unfold rollback_status.
    cbn [vars w0] in *. rewrite Hpos, Hecho. reflexivity.
  - discriminate.
  - apply calls_of_history. rewrite Hrun, pmem_cleanup_run.
    unfold rollback_calls, major_deregistration. cbn [vars history snd w0] in *.
    rewrite Hpos, Hecho. rewrite <- app_assoc. reflexivity.
Qed.

Lemma stop_reports_deregistration_mismatch_witness :
  fst (com_google_MacPmem_stop bad_echo (started bad_echo)) = KERN_FAILURE.
Proof.
  apply (stop_reports_deregistration_mismatch bad_echo (started bad_echo)).
  - reflexivity.
  - vm_compute. discriminate.
Defined.

(** C7. In every run of the rollback, on its own, from
    [com_google_MacPmem_stop] and from a failing
    [com_google_MacPmem_start], no node is removed after the major number
    has been deregistered: the node removals, one for each node handle that
    is set, are the first calls of the rollback, and no later call removes a
    node. *)
Theorem nodes_removed_before_deregistration
    (p : platform) (e : Z) (w : world) :
  (exists rest,
     calls_of (pmem_cleanup p e) w = node_removals (vars w) ++ rest /\
     forallb (fun c => negb (is_node_removal c)) rest = true /\
     forallb is_node_removal (node_removals (vars w)) = true) /\
  nodes_before_major (calls_of (pmem_cleanup p e) w) = true /\
  nodes_before_major (calls_of (com_google_MacPmem_stop p) w) = true /\
  nodes_before_major (calls_of (com_google_MacPmem_start p) w) = true.
Proof.
  split; [|split; [|split]].
  - exists (major_deregistration p w ++ later_cleanup (vars w)).
    split; [apply pmem_cleanup_calls|].
    split; [apply rollback_calls_order|].
    unfold node_removals.
    destruct (truthy (pmem_devnode (vars w))),
      (truthy (pmem_infonode (vars w))); reflexivity.
  - rewrite pmem_cleanup_calls. apply rollback_calls_order.
  - set (w0 := mkWorld (vars w)
                 (history w ++ [pmem_log Info "Unloading MacPmem" []])).
    assert (Hrun : com_google_MacPmem_stop p w =
                   pmem_cleanup p KERN_SUCCESS w0) by reflexivity.
    rewrite (calls_of_history _ w
               (pmem_log Info "Unloading MacPmem" [] :: rollback_calls p w0)).
    + cbn [nodes_before_major is_deregistration andb].
      apply rollback_calls_order.
    + rewrite Hrun, pmem_cleanup_run. cbn [snd history w0].
      rewrite <- app_assoc. reflexivity.
  - destruct (start_outcome p w) as [[_ (acq & g1 & Hw & Hacq)]
                                    |(e' & acq & g1 & Hrun & _ & Hacq & _)].
    + rewrite (calls_of_history _ w acq) by (rewrite Hw; reflexivity).
      rewrite <- (app_nil_r acq).
      rewrite nodes_before_major_app
        by (apply no_release_no_deregistration; exact Hacq).
      reflexivity.
    + rewrite (calls_of_history _ w
                 (acq ++ rollback_calls p (mkWorld g1 (history w ++ acq)))).
      * rewrite nodes_before_major_app
          by (apply no_release_no_deregistration; exact Hacq).
        apply rollback_calls_order.
      * rewrite Hrun, pmem_cleanup_run. cbn [snd history].
        rewrite <- app_assoc. reflexivity.
Qed.

(** C1, as the code has it. [pmem_cleanup] writes no static variable: after
    one run and after two, every handle holds the value it held before.  A
    second run is therefore no no-op: it makes again every release call of
    the first, on the same handles, and there is always at least one. *)
Theorem cleanup_keeps_handles_and_repeats_releases
    (p : platform) (e1 e2 : Z) (w : world) :
  let w1 := snd (pmem_cleanup p e1 w) in
  let w2 := snd (pmem_cleanup p e2 w1) in
  vars w1 = vars w /\
  vars w2 = vars w1 /\
  filter is_release (calls_of (pmem_cleanup p e1) w) =
    rollback_releases (vars w) /\
  filter is_release (calls_of (pmem_cleanup p e2) w1) =
    rollback_releases (vars w) /\
  In pmem_meta_cleanup (rollback_releases (vars w)).
Proof.
  intros w1 w2.
  assert (H1 : vars w1 = vars w) by apply pmem_cleanup_vars.
  split; [exact H1|]. split; [apply pmem_cleanup_vars|].
  split; [rewrite pmem_cleanup_calls; apply rollback_calls_releases|].
  split.
  - rewrite pmem_cleanup_calls, rollback_calls_releases, H1. reflexivity.
  - unfold rollback_releases, later_cleanup.
    apply in_or_app. right. apply in_or_app. right.
    apply in_or_app. right. left. reflexivity.
Qed.

(** C1 fails as stated: after a successful start, a second rollback in a
    row changes the world again; it removes both nodes, deregisters the
    major number, frees the tag and the lock groups a second time. *)
Lemma second_cleanup_is_not_a_noop :
  let w1 := snd (pmem_cleanup healthy KERN_SUCCESS (started healthy)) in
  let w2 := snd (pmem_cleanup healthy KERN_SUCCESS w1) in
  w2 <> w1 /\
  calls_of (pmem_cleanup healthy KERN_SUCCESS) w1 =
    [devfs_remove 65537; devfs_remove 65538; cdevsw_remove 17;
     OSMalloc_Tagfree 4096; pmem_meta_cleanup; pmem_pte_cleanup;
     sysctl_unregister_oid;
     lck_grp_attr_free 8272; lck_grp_free 8280;
     lck_grp_attr_free 8224; lck_grp_free 8232] /\
  calls_of (pmem_cleanup healthy KERN_SUCCESS) (started healthy) =
    calls_of (pmem_cleanup healthy KERN_SUCCESS) w1.
Proof.
  cbv zeta. split; [|split].
  - intros H. apply (f_equal (fun w => List.length (history w))) in H.
    vm_compute in H. discriminate H.
  - vm_compute. reflexivity.
  - vm_compute. reflexivity.
Qed.

(** C3, as the code has it. [pmem_cleanup] returns its argument, except
    when the major number is positive and [cdevsw_remove] answers another
    number: then it returns [KERN_FAILURE], whatever the argument was; so
    with a non-success [prior_error] the status is never success.  When a
    step of the start sequence fails, [com_google_MacPmem_start] hands that
    step's error to the rollback and returns what the rollback returns:
    that error, or [KERN_FAILURE] on such a mismatch, and never success. *)
Theorem rollback_reports_prior_error_or_failure
    (p : platform) (w : world) (e : Z) (k : failed_step) :
  fst (pmem_cleanup p e w) =
    (if echo_mismatch p w then KERN_FAILURE else e) /\
  (e <> KERN_SUCCESS -> fst (pmem_cleanup p e w) <> KERN_SUCCESS) /\
  (fails_at p w k ->
   error_of p w k <> KERN_SUCCESS /\
   fst (com_google_MacPmem_start p w) =
     (if echo_mismatch p (rollback_world p w k)
      then KERN_FAILURE else error_of p w k) /\
   fst (com_google_MacPmem_start p w) <> KERN_SUCCESS).
Proof.
  assert (Hc : forall e0 w0,
            fst (pmem_cleanup p e0 w0) =
              (if echo_mismatch p w0 then KERN_FAILURE else e0)).
  { intros e0 w0. rewrite pmem_cleanup_status.
    unfold rollback_status, echo_mismatch.
    destruct (0 <? pmem_majorno (vars w0)); [|reflexivity].
    destruct (removed_idx p w0 =? pmem_majorno (vars w0)); reflexivity. }
  split; [apply Hc|]. split.
  - intros He. rewrite pmem_cleanup_status.
    apply rollback_status_failure. exact He.
  - intros H. destruct (start_fails_at p w k H) as [Hrun He].
    split; [exact He|]. rewrite Hrun. split; [apply Hc|].
    rewrite pmem_cleanup_status. apply rollback_status_failure. exact He.
Qed.

Lemma rollback_reports_prior_error_or_failure_witness :
  fst (pmem_cleanup healthy KERN_INVALID_ARGUMENT (started healthy)) <>
    KERN_SUCCESS /\
  fst (com_google_MacPmem_start meta_fails_bad_echo
         (initial_world meta_fails_bad_echo)) = KERN_FAILURE.
Proof.
  destruct (rollback_reports_prior_error_or_failure healthy (started healthy)
              KERN_INVALID_ARGUMENT meta_init_failed) as (_ & Hc & _).
  destruct (rollback_reports_prior_error_or_failure meta_fails_bad_echo
              (initial_world meta_fails_bad_echo) KERN_SUCCESS
              meta_init_failed) as (_ & _ & Hs).
  split.
  - apply Hc. vm_compute. discriminate.
  - destruct Hs as (_ & Hres & _).
    + split; [vm_compute; reflexivity | vm_compute; discriminate].
    + rewrite Hres. reflexivity.
Defined.

(** C3 fails as stated: the metadata module fails with
    [KERN_INVALID_ARGUMENT], [cdevsw_remove] then answers another number
    than the one registered, and both the rollback and
    [com_google_MacPmem_start] return [KERN_FAILURE] instead. *)
Lemma cleanup_overrides_prior_error :
  let p := meta_fails_bad_echo in
  let r := com_google_MacPmem_start p (initial_world p) in
  let w1 := mkWorld (vars (snd r)) (firstn 16 (history (snd r))) in
  nth_error (history (snd r)) 14 = Some pmem_meta_init /\
  respond p (firstn 14 (history (snd r))) pmem_meta_init =
    KERN_INVALID_ARGUMENT /\
  KERN_INVALID_ARGUMENT <> KERN_SUCCESS /\
  r = pmem_cleanup p KERN_INVALID_ARGUMENT w1 /\
  fst (pmem_cleanup p KERN_INVALID_ARGUMENT w1) = KERN_FAILURE /\
  fst r = KERN_FAILURE /\
  KERN_FAILURE <> KERN_INVALID_ARGUMENT.
Proof.
  cbv zeta.
  split; [vm_compute; reflexivity|].
  split; [vm_compute; reflexivity|].
  split; [vm_compute; discriminate|].
  split; [vm_compute; reflexivity|].
  split; [vm_compute; reflexivity|].
  split; [vm_compute; reflexivity|].
  vm_compute; discriminate.
Qed.

(** * The start sequence *)

(** C2, as the code has it. When a step of the start sequence fails,
    [com_google_MacPmem_start] does not succeed; it has released nothing so
    far and runs the rollback once, with the step's error, before it
    returns.  The rollback's calls come in the one order of
    [pmem_cleanup], whichever step failed: the memory node and the info
    node (each if its handle is set), the major number (if positive), the
    allocation tag (if set), the metadata and the PTE cleanups (always,
    initialised or not), the sysctl (if flagged), the mutex and the rwlock
    groups with their attributes (always). *)
Theorem failed_start_rolls_back_in_cleanup_order
    (p : platform) (w : world) (k : failed_step) :
  fails_at p w k ->
  let gi := init_globals p w in
  let ic := calls_of (pmem_init p) (init_world w) in
  let w1 := rollback_world p w k in
  fst (com_google_MacPmem_start p w) <> KERN_SUCCESS /\
  com_google_MacPmem_start p w = pmem_cleanup p (error_of p w k) w1 /\
  vars (snd (com_google_MacPmem_start p w)) = gi /\
  no_release (loaded_msg :: ic ++ calls_before_rollback (gave_up_at k)) =
    true /\
  calls_of (com_google_MacPmem_start p) w =
    loaded_msg :: ic ++ calls_before_rollback (gave_up_at k) ++
    node_removals gi ++ major_deregistration p w1 ++ later_cleanup gi.
Proof.
  intros H gi ic w1.
  destruct (start_fails_at p w k H) as [Hrun He]. fold w1 in Hrun.
  split; [|split; [exact Hrun|split; [|split]]].
  - rewrite Hrun, pmem_cleanup_status.
    apply rollback_status_failure. exact He.
  - rewrite Hrun. apply pmem_cleanup_vars.
  - change (loaded_msg :: ic ++ calls_before_rollback (gave_up_at k))
      with ([loaded_msg] ++ ic ++ calls_before_rollback (gave_up_at k)).
    rewrite !no_release_app.
    destruct (pmem_init_run p (init_world w))
      as (st & g' & ic' & Hinit & Hrel & _).
    assert (Hic : ic = ic')
      by (subst ic; apply calls_of_history; rewrite Hinit; reflexivity).
    rewrite Hic, Hrel.
    destruct (calls_before_rollback_plain (gave_up_at k)) as [Hk _].
    rewrite Hk. reflexivity.
  - apply calls_of_history. rewrite Hrun, pmem_cleanup_run.
    cbn [snd]. unfold rollback_calls.
    change (vars w1) with gi.
    change (history w1)
      with ((history w ++ loaded_msg :: ic) ++
            calls_before_rollback (gave_up_at k)).
    rewrite <- !app_assoc. reflexivity.
Qed.

Lemma failed_start_rolls_back_in_cleanup_order_witness :
  fst (com_google_MacPmem_start major_refused (initial_world major_refused)) <>
    KERN_SUCCESS /\
  fst (com_google_MacPmem_start info_node_fails
         (initial_world info_node_fails)) <> KERN_SUCCESS /\
  fst (com_google_MacPmem_start dev_node_fails
         (initial_world dev_node_fails)) <> KERN_SUCCESS /\
  fst (com_google_MacPmem_start meta_fails_bad_echo
         (initial_world meta_fails_bad_echo)) <> KERN_SUCCESS /\
  fst (com_google_MacPmem_start pte_fails (initial_world pte_fails)) <>
    KERN_SUCCESS.
Proof.
  split; [|split; [|split; [|split]]].
  - apply (failed_start_rolls_back_in_cleanup_order major_refused
             (initial_world major_refused) registration_refused).
    exists (-1). split; [|reflexivity].
    vm_compute. repeat (first [left; reflexivity | right]).
  - apply (failed_start_rolls_back_in_cleanup_order info_node_fails
             (initial_world info_node_fails) info_node_refused).
    exists (darwin_makedev 17 2), 432.
    vm_compute. repeat (first [left; reflexivity | right]).
  - apply (failed_start_rolls_back_in_cleanup_order dev_node_fails
             (initial_world dev_node_fails) dev_node_refused).
    exists (darwin_makedev 17 1), 432.
    vm_compute. repeat (first [left; reflexivity | right]).
  - apply (failed_start_rolls_back_in_cleanup_order meta_fails_bad_echo
             (initial_world meta_fails_bad_echo) meta_init_failed).
    split; [vm_compute; reflexivity | vm_compute; discriminate].
  - apply (failed_start_rolls_back_in_cleanup_order pte_fails
             (initial_world pte_fails) pte_init_failed).
    split; [vm_compute; reflexivity|].
    split; [vm_compute; reflexivity | vm_compute; discriminate].
Defined.

(** C2 fails as stated: the PTE module fails to initialise (step 6), and
    the rollback undoes the steps in the order 4, 3, 2, 5, 6, 1: the
    metadata module (step 5) is cleaned up after the nodes and the major
    number, acquired before it, and the PTE module, never initialised, is
    cleaned up too. *)
Lemma rollback_is_not_in_reverse_order :
  let r := com_google_MacPmem_start pte_fails (initial_world pte_fails) in
  fst r = KERN_FAILURE /\
  nth_error (history (snd r)) 15 = Some pmem_pte_init /\
  respond pte_fails (firstn 15 (history (snd r))) pmem_pte_init <>
    KERN_SUCCESS /\
  filter is_release (history (snd r)) =
    [devfs_remove 65537; devfs_remove 65538; cdevsw_remove 17;
     OSMalloc_Tagfree 4096; pmem_meta_cleanup; pmem_pte_cleanup;
     lck_grp_attr_free 8272; lck_grp_free 8280;
     lck_grp_attr_free 8224; lck_grp_free 8232] /\
  released_steps (vars (snd r)) (history (snd r)) =
    [4; 3; 2; 5; 6; 1; 1; 1; 1]%nat /\
  descending (released_steps (vars (snd r)) (history (snd r))) = false /\
  In 6%nat (released_steps (vars (snd r)) (history (snd r))).
Proof.
  cbv zeta.
  split; [vm_compute; reflexivity|].
  split; [vm_compute; reflexivity|].
  split; [vm_compute; discriminate|].
  split; [vm_compute; reflexivity|].
  split; [vm_compute; reflexivity|].
  split; [vm_compute; reflexivity|].
  vm_compute. tauto.
Qed.

(** C9, as the code has it. [pmem_init] does not test what the lock-group
    and attribute allocators return.  Whatever they answer, null included,
    a start makes the same nine first calls, ending with the registration
    of the major number, and stores each answer as it came; whether it
    succeeds is decided by the registration, the two node creations and the
    two module initialisations alone: it succeeds exactly when the major
    number is not negative, both node handles are non-null and both modules
    answer [KERN_SUCCESS], and so on every kernel where these five never
    fail. *)
Theorem start_does_not_check_lock_groups (p : platform) (w : world) :
  let g' := vars (snd (com_google_MacPmem_start p w)) in
  let calls := calls_of (com_google_MacPmem_start p) w in
  firstn 9 calls =
    [loaded_msg;
     OSMalloc_Tagalloc pmem_tagname;
     lck_grp_attr_alloc_init;
     lck_grp_attr_setstat (pmem_rwlock_grp_attr g');
     lck_grp_alloc_init "pmem_rwlock" (pmem_rwlock_grp_attr g');
     lck_grp_attr_alloc_init;
     lck_grp_attr_setstat (pmem_mutex_grp_attr g');
     lck_grp_alloc_init "pmem_mutex" (pmem_mutex_grp_attr g');
     cdevsw_add (PMEM_MAJOR p)] /\
  filter (fun a => negb (is_setstat (fst a)))
    (firstn 8 (tl (answers p (history w) calls))) =
    [(OSMalloc_Tagalloc pmem_tagname, pmem_tag g');
     (lck_grp_attr_alloc_init, pmem_rwlock_grp_attr g');
     (lck_grp_alloc_init "pmem_rwlock" (pmem_rwlock_grp_attr g'),
      pmem_rwlock_grp g');
     (lck_grp_attr_alloc_init, pmem_mutex_grp_attr g');
     (lck_grp_alloc_init "pmem_mutex" (pmem_mutex_grp_attr g'),
      pmem_mutex_grp g');
     (cdevsw_add (PMEM_MAJOR p), pmem_majorno g')] /\
  (fst (com_google_MacPmem_start p w) =? KERN_SUCCESS) =
    (0 <=? pmem_majorno g') && truthy (pmem_infonode g') &&
    truthy (pmem_devnode g') &&
    (meta_answer p w =? KERN_SUCCESS) && (pte_answer p w =? KERN_SUCCESS) /\
  ((forall t i, 0 <= respond p t (cdevsw_add i)) ->
   (forall t d pm n, respond p t (devfs_make_node d pm n) <> 0) ->
   (forall t, respond p t pmem_meta_init = KERN_SUCCESS) ->
   (forall t, respond p t pmem_pte_init = KERN_SUCCESS) ->
   fst (com_google_MacPmem_start p w) = KERN_SUCCESS).
Proof.
  cbv zeta.
  destruct (start_calls_prefix p w) as (rest & Hc & Hv).
  pose proof (start_status p w) as Hs.
  rewrite (pmem_init_status_test p (init_world w)) in Hs. cbv zeta in Hs.
  fold (init_globals p w) in Hs.
  destruct (pmem_init_run p (init_world w))
    as (st & gi & ic & Hrun & _ & _ & _ & _ & _ & Hpre & Hans & _).
  assert (Hgi : init_globals p w = gi)
    by (unfold init_globals; rewrite Hrun; reflexivity).
  rewrite (calls_of_history _ (init_world w) ic) in Hc
    by (rewrite Hrun; reflexivity).
  rewrite Hgi in Hv, Hs. clear Hgi Hrun.
  rewrite Hc.
  assert (Hlen : (8 <= List.length ic)%nat).
  { apply (f_equal (@List.length call)) in Hpre.
    rewrite length_firstn in Hpre. cbn [List.length] in Hpre. lia. }
  assert (Hfields :
    pmem_tag (vars (snd (com_google_MacPmem_start p w))) = pmem_tag gi /\
    pmem_rwlock_grp_attr (vars (snd (com_google_MacPmem_start p w))) =
      pmem_rwlock_grp_attr gi /\
    pmem_rwlock_grp (vars (snd (com_google_MacPmem_start p w))) =
      pmem_rwlock_grp gi /\
    pmem_mutex_grp_attr (vars (snd (com_google_MacPmem_start p w))) =
      pmem_mutex_grp_attr gi /\
    pmem_mutex_grp (vars (snd (com_google_MacPmem_start p w))) =
      pmem_mutex_grp gi /\
    pmem_majorno (vars (snd (com_google_MacPmem_start p w))) =
      pmem_majorno gi /\
    pmem_infonode (vars (snd (com_google_MacPmem_start p w))) =
      pmem_infonode gi /\
    pmem_devnode (vars (snd (com_google_MacPmem_start p w))) =
      pmem_devnode gi)
    by (destruct Hv as [Hv|Hv]; rewrite Hv; repeat split).
  destruct Hfields as (Et & Era & Erg & Ema & Emg & Emj & Ei & Ed).
  rewrite Et, Era, Erg, Ema, Emg, Emj, Ei, Ed.
  split; [|split; [|split]].
  - change (firstn 9 (loaded_msg :: ic ++ rest))
      with (loaded_msg :: firstn 8 (ic ++ rest)).
    rewrite (firstn_app_full 8 ic rest _ Hpre eq_refl). reflexivity.
  - change (tl (answers p (history w) (loaded_msg :: ic ++ rest)))
      with (answers p (history (init_world w)) (ic ++ rest)).
    rewrite answers_app, firstn_app, answers_length.
    replace (8 - List.length ic)%nat with 0%nat by lia.
    cbn [firstn]. rewrite app_nil_r. exact Hans.
  - exact Hs.
  - apply start_succeeds_on_a_willing_kernel.
Qed.

Lemma start_does_not_check_lock_groups_witness :
  fst (com_google_MacPmem_start null_lock_groups
         (initial_world null_lock_groups)) = KERN_SUCCESS.
Proof.
  apply (start_does_not_check_lock_groups null_lock_groups
           (initial_world null_lock_groups)).
  - intros t i. change (0 <= 17). lia.
  - intros t d pm n. change (65536 + darwin_minor d <> 0).
    unfold darwin_minor.
    assert (H : 0 <= Z.land d 16777215)
      by (apply Z.land_nonneg; right; lia).
    lia.
  - intros t. reflexivity.
  - intros t. reflexivity.
Defined.

(** C9 fails as stated: both lock-group allocations come back null, and
    [com_google_MacPmem_start] still registers the major number, creates
    both nodes and returns [KERN_SUCCESS], with the null group handles
    stored. *)
Lemma start_succeeds_without_lock_groups :
  let w := started null_lock_groups in
  let a1 := pmem_rwlock_grp_attr (vars w) in
  let a2 := pmem_mutex_grp_attr (vars w) in
  fst (com_google_MacPmem_start null_lock_groups
         (initial_world null_lock_groups)) = KERN_SUCCESS /\
  nth_error (history w) 4 = Some (lck_grp_alloc_init "pmem_rwlock" a1) /\
  respond null_lock_groups (firstn 4 (history w))
    (lck_grp_alloc_init "pmem_rwlock" a1) = 0 /\
  nth_error (history w) 7 = Some (lck_grp_alloc_init "pmem_mutex" a2) /\
  respond null_lock_groups (firstn 7 (history w))
    (lck_grp_alloc_init "pmem_mutex" a2) = 0 /\
  a1 = 8224 /\ a2 = 8272 /\
  pmem_rwlock_grp (vars w) = 0 /\ pmem_mutex_grp (vars w) = 0 /\
  nth_error (history w) 8 = Some (cdevsw_add (-1)) /\
  pmem_majorno (vars w) = 17 /\
  pmem_infonode (vars w) = 65538 /\ pmem_devnode (vars w) = 65537 /\
  pmem_sysctl_needs_cleanup (vars w) = 1.
Proof. cbv zeta. repeat split; vm_compute; reflexivity. Qed.

(** C5, where the code departs from it. The kernel assigns major number 0:
    [pmem_init] accepts it, both nodes are made on it and
    [com_google_MacPmem_start] succeeds; [com_google_MacPmem_stop] then
    removes the nodes and never calls [cdevsw_remove], since the rollback
    tests [pmem_majorno > 0]. *)
Theorem major_number_zero_is_never_deregistered :
  let w := started major_zero in
  fst (com_google_MacPmem_start major_zero (initial_world major_zero)) =
    KERN_SUCCESS /\
  nth_error (history w) 8 = Some (cdevsw_add (-1)) /\
  respond major_zero (firstn 8 (history w)) (cdevsw_add (-1)) = 0 /\
  pmem_majorno (vars w) = 0 /\
  fst (com_google_MacPmem_stop major_zero w) = KERN_SUCCESS /\
  calls_of (com_google_MacPmem_stop major_zero) w =
    [pmem_log Info "Unloading MacPmem" [];
     devfs_remove 65537; devfs_remove 65538;
     OSMalloc_Tagfree 4096; pmem_meta_cleanup; pmem_pte_cleanup;
     sysctl_unregister_oid;
     lck_grp_attr_free 8272; lck_grp_free 8280;
     lck_grp_attr_free 8224; lck_grp_free 8232] /\
  existsb is_deregistration (calls_of (com_google_MacPmem_stop major_zero) w) =
    false.
Proof. cbv zeta. repeat split; vm_compute; reflexivity. Qed.

(** * Acquisition in detail *)

(** X1. [pmem_init] returns [KERN_SUCCESS] or [KERN_FAILURE] and nothing
    else, and it succeeds exactly when it leaves a major number that is not
    negative and two non-null node handles. *)
Theorem pmem_init_succeeds_iff (p : platform) (w : world) :
  let r := pmem_init p w in
  let g' := vars (snd r) in
  (fst r = KERN_SUCCESS \/ fst r = KERN_FAILURE) /\
  (fst r = KERN_SUCCESS <->
   0 <= pmem_majorno g' /\ pmem_infonode g' <> 0 /\ pmem_devnode g' <> 0).
Proof.
  destruct (pmem_init_run p w)
    as (st & g' & ic & Hrun & _ & _ & _ & Hst & Hiff & _).
  cbv zeta. rewrite Hrun. cbn [fst snd vars]. split; assumption.
Qed.

(** X2. [pmem_init] gives nothing back: whatever its outcome, the calls it
    makes contain no release and no sysctl call, and it leaves
    [pmem_sysctl_needs_cleanup] as it was.  After a failure everything it
    acquired is still held; undoing it is left to the caller. *)
Theorem pmem_init_only_acquires (p : platform) (w : world) :
  let r := pmem_init p w in
  history (snd r) = history w ++ calls_of (pmem_init p) w /\
  no_release (calls_of (pmem_init p) w) = true /\
  forallb (fun c => negb (is_sysctl c)) (calls_of (pmem_init p) w) = true /\
  pmem_sysctl_needs_cleanup (vars (snd r)) =
    pmem_sysctl_needs_cleanup (vars w).
Proof.
  cbv zeta. split; [apply pmem_init_calls|].
  destruct (pmem_init_run p w)
    as (st & g' & ic & Hrun & Hrel & Hsys & Hflag & _).
  rewrite (calls_of_history _ w ic) by (rewrite Hrun; reflexivity).
  rewrite Hrun. cbn [snd vars]. repeat split; assumption.
Qed.

(** X3. Whatever its outcome, [pmem_init] starts with the same eight
    calls: the allocation tag, the rwlock attribute, its statistics flag
    and the rwlock group made from it, the same three for the mutex group,
    and the registration with [PMEM_MAJOR]; and each of the six static
    variables holds, unchanged, what the kernel answered. *)
Theorem pmem_init_stores_what_the_kernel_answers (p : platform) (w : world) :
  let g' := vars (snd (pmem_init p w)) in
  let calls := calls_of (pmem_init p) w in
  firstn 8 calls =
    [OSMalloc_Tagalloc pmem_tagname;
     lck_grp_attr_alloc_init;
     lck_grp_attr_setstat (pmem_rwlock_grp_attr g');
     lck_grp_alloc_init "pmem_rwlock" (pmem_rwlock_grp_attr g');
     lck_grp_attr_alloc_init;
     lck_grp_attr_setstat (pmem_mutex_grp_attr g');
     lck_grp_alloc_init "pmem_mutex" (pmem_mutex_grp_attr g');
     cdevsw_add (PMEM_MAJOR p)] /\
  filter (fun a => negb (is_setstat (fst a)))
    (firstn 8 (answers p (history w) calls)) =
    [(OSMalloc_Tagalloc pmem_tagname, pmem_tag g');
     (lck_grp_attr_alloc_init, pmem_rwlock_grp_attr g');
     (lck_grp_alloc_init "pmem_rwlock" (pmem_rwlock_grp_attr g'),
      pmem_rwlock_grp g');
     (lck_grp_attr_alloc_init, pmem_mutex_grp_attr g');
     (lck_grp_alloc_init "pmem_mutex" (pmem_mutex_grp_attr g'),
      pmem_mutex_grp g');
     (cdevsw_add (PMEM_MAJOR p), pmem_majorno g')] /\
  filter (fun a => is_registration (fst a)) (answers p (history w) calls) =
    [(cdevsw_add (PMEM_MAJOR p), pmem_majorno g')].
Proof.
  destruct (pmem_init_run p w)
    as (st & g' & ic & Hrun & _ & _ & _ & _ & _ & Hpre & Hans & _ & Hreg & _).
  cbv zeta.
  rewrite (calls_of_history _ w ic) by (rewrite Hrun; reflexivity).
  rewrite Hrun. cbn [snd vars]. repeat split; assumption.
Qed.

(** X4. [pmem_init] creates the nodes on the major number the kernel
    assigned, the info node first: none at all when the registration was
    refused, the info node alone ([PMEM_INFO_MINOR], pmem_info) when its
    creation fails, and otherwise the memory node too ([PMEM_DEV_MINOR],
    pmem), both with [PMEM_DEV_PERMS]; it stores the handles the kernel
    answered.  A node it does not try to create keeps its handle. *)
Theorem pmem_init_creates_nodes_on_its_major (p : platform) (w : world) :
  let g' := vars (snd (pmem_init p w)) in
  filter (fun a => is_make_node (fst a))
    (answers p (history w) (calls_of (pmem_init p) w)) = created_nodes p g' /\
  (pmem_majorno g' < 0 ->
   pmem_infonode g' = pmem_infonode (vars w) /\
   pmem_devnode g' = pmem_devnode (vars w)) /\
  (pmem_infonode g' = 0 -> pmem_devnode g' = pmem_devnode (vars w)).
Proof.
  destruct (pmem_init_run p w)
    as (st & g' & ic & Hrun & _ & _ & _ & _ & _ & _ & _ & Hmk & _ & Hun1 & Hun2).
  cbv zeta.
  rewrite (calls_of_history _ w ic) by (rewrite Hrun; reflexivity).
  rewrite Hrun. cbn [snd vars]. repeat split; try assumption.
  - apply Hun1. assumption.
  - apply Hun1. assumption.
Qed.

Lemma pmem_init_creates_nodes_on_its_major_witness :
  let w := initial_world major_refused in
  let g' := vars (snd (pmem_init major_refused w)) in
  pmem_majorno g' < 0 /\ pmem_infonode g' = 0 /\ pmem_devnode g' = 0 /\
  filter (fun a => is_make_node (fst a))
    (answers major_refused (history w)
       (calls_of (pmem_init major_refused) w)) = [].
Proof.
  cbv zeta.
  destruct (pmem_init_creates_nodes_on_its_major major_refused
              (initial_world major_refused)) as (Hmk & Hun1 & Hun2).
  assert (Hneg : pmem_majorno
            (vars (snd (pmem_init major_refused (initial_world major_refused))))
            < 0) by reflexivity.
  destruct (Hun1 Hneg) as [Hi Hd].
  assert (Hnull : pmem_infonode
            (vars (snd (pmem_init major_refused (initial_world major_refused))))
            = 0) by reflexivity.
  split; [exact Hneg|]. split; [exact Hi|]. split; [exact (Hun2 Hnull)|].
  rewrite Hmk. reflexivity.
Defined.

(** * The start sequence in detail *)

(** X5. A successful [com_google_MacPmem_start] has released nothing, has
    asked both modules to initialise and got [KERN_SUCCESS] from each, and
    registers the sysctl as its very last call; it leaves
    [pmem_sysctl_needs_cleanup] at 1, a major number that is not negative
    and two non-null node handles. *)
Theorem successful_start_postcondition (p : platform) (w : world) :
  fst (com_google_MacPmem_start p w) = KERN_SUCCESS ->
  let g' := vars (snd (com_google_MacPmem_start p w)) in
  let calls := calls_of (com_google_MacPmem_start p) w in
  pmem_sysctl_needs_cleanup g' = 1 /\
  0 <= pmem_majorno g' /\ pmem_infonode g' <> 0 /\ pmem_devnode g' <> 0 /\
  no_release calls = true /\
  exists pre,
    calls = pre ++ [pmem_meta_init; pmem_pte_init; sysctl_register_oid] /\
    forallb (fun c => negb (is_sysctl c)) pre = true /\
    respond p (history w ++ pre) pmem_meta_init = KERN_SUCCESS /\
    respond p (history w ++ pre ++ [pmem_meta_init]) pmem_pte_init =
      KERN_SUCCESS.
Proof.
  intros Hok.
  destruct (successful_start_calls p w Hok) as (Hi & Hm & Hp & Hw & Hc).
  set (w0 := mkWorld (vars w) (history w ++ [loaded_msg])) in *.
  destruct (pmem_init_run p w0)
    as (st & gi & ic & Hrun & Hrel & Hsys & _ & _ & Hiff & _).
  rewrite (calls_of_history _ w0 ic) in * by (rewrite Hrun; reflexivity).
  rewrite Hrun in Hi, Hw. cbn [fst snd vars] in Hi, Hw.
  cbv zeta. rewrite Hw, Hc. cbn [vars].
  apply Hiff in Hi. destruct Hi as (Hmaj & Hinfo & Hdev).
  split; [reflexivity|]. split; [exact Hmaj|]. split; [exact Hinfo|].
  split; [exact Hdev|]. split.
  - change (loaded_msg :: ic ++ [pmem_meta_init; pmem_pte_init;
                                 sysctl_register_oid])
      with ([loaded_msg] ++ ic ++ [pmem_meta_init; pmem_pte_init;
                                   sysctl_register_oid]).
    rewrite !no_release_app, Hrel. reflexivity.
  - exists (loaded_msg :: ic). split; [reflexivity|].
    split; [cbn [forallb is_sysctl loaded_msg negb andb]; exact Hsys|].
    split; [exact Hm|]. rewrite app_assoc. exact Hp.
Qed.

Lemma successful_start_postcondition_witness :
  pmem_sysctl_needs_cleanup (vars (started healthy)) = 1 /\
  no_release (calls_of (com_google_MacPmem_start healthy)
                (initial_world healthy)) = true.
Proof.
  destruct (successful_start_postcondition healthy (initial_world healthy))
    as (Hflag & _ & _ & _ & Hrel & _).
  - reflexivity.
  - split; [exact Hflag | exact Hrel].
Defined.

(** X6. A failing [com_google_MacPmem_start] never registers the sysctl and
    leaves [pmem_sysctl_needs_cleanup] as it was: its only possible sysctl
    call is the unregistration the rollback makes when the flag was already
    set before the start. *)
Theorem failed_start_leaves_sysctl_alone (p : platform) (w : world) :
  fst (com_google_MacPmem_start p w) <> KERN_SUCCESS ->
  pmem_sysctl_needs_cleanup (vars (snd (com_google_MacPmem_start p w))) =
    pmem_sysctl_needs_cleanup (vars w) /\
  filter is_sysctl (calls_of (com_google_MacPmem_start p) w) =
    (if truthy (pmem_sysctl_needs_cleanup (vars w))
     then [sysctl_unregister_oid] else []).
Proof.
  intros Hfail.
  destruct (failed_start_calls p w Hfail) as (k & Hv & Hc).
  set (w0 := mkWorld (vars w) (history w ++ [loaded_msg])) in *.
  destruct (pmem_init_run p w0)
    as (st & gi & ic & Hrun & _ & Hsys & Hflag & _).
  rewrite (calls_of_history _ w0 ic) in * by (rewrite Hrun; reflexivity).
  rewrite Hrun in Hv, Hc. cbn [snd vars] in Hv, Hc, Hflag.
  rewrite Hv, Hc. split; [exact Hflag|].
  change (loaded_msg :: ic ++ ?l) with ([loaded_msg] ++ ic ++ l).
  rewrite !filter_app.
  rewrite (filter_none is_sysctl ic Hsys).
  rewrite (filter_none is_sysctl (calls_before_rollback k))
    by apply calls_before_rollback_plain.
  destruct (rollback_calls_acquire_nothing p
              (mkWorld gi (history w ++ loaded_msg :: ic ++
                           calls_before_rollback k)))
    as (_ & _ & Hrb & _).
  rewrite Hrb. cbn [vars]. rewrite Hflag. reflexivity.
Qed.

Lemma failed_start_leaves_sysctl_alone_witness :
  filter is_sysctl (calls_of (com_google_MacPmem_start pte_fails)
                      (initial_world pte_fails)) = [].
Proof.
  destruct (failed_start_leaves_sysctl_alone pte_fails
              (initial_world pte_fails)) as [_ H].
  - vm_compute. discriminate.
  - exact H.
Defined.

(** X7. A failing [com_google_MacPmem_start] that began with null node
    handles removes, before it returns, exactly the nodes it created: a
    handle is passed to [devfs_remove] if and only if it is a non-null
    answer to one of its [devfs_make_node] calls.  Likewise it deregisters
    exactly the major number it was assigned, provided that number is
    positive. *)
Theorem failed_start_releases_what_it_created (p : platform) (w : world) :
  pmem_infonode (vars w) = 0 ->
  pmem_devnode (vars w) = 0 ->
  fst (com_google_MacPmem_start p w) <> KERN_SUCCESS ->
  let calls := calls_of (com_google_MacPmem_start p) w in
  let tr := answers p (history w) calls in
  (forall n,
     In (devfs_remove n) calls <->
     n <> 0 /\ exists d pm nm, In (devfs_make_node d pm nm, n) tr) /\
  (forall m,
     In (cdevsw_remove m) calls <->
     0 < m /\ exists i, In (cdevsw_add i, m) tr).
Proof.
  intros Hi0 Hd0 Hfail.
  destruct (failed_start_calls p w Hfail) as (k & Hv & Hc).
  set (w0 := mkWorld (vars w) (history w ++ [loaded_msg])) in *.
  destruct (pmem_init_run p w0)
    as (st & gi & ic & Hrun & Hrel & _ & _ & _ & _ & _ & _ & Hmk & Hreg
        & Hun1 & Hun2).
  rewrite (calls_of_history _ w0 ic) in * by (rewrite Hrun; reflexivity).
  rewrite Hrun in Hc. cbn [snd vars] in Hc, Hun1, Hun2.
  cbn [vars w0] in Hun1, Hun2. rewrite Hi0, Hd0 in Hun1. rewrite Hd0 in Hun2.
  set (w1 := mkWorld gi (history w ++ loaded_msg :: ic ++
                         calls_before_rollback k)) in *.
  destruct (rollback_calls_acquire_nothing p w1)
    as (Hrmk & Hrreg & _ & Hrnode & Hrdereg & _).
  change (vars w1) with gi in Hrnode, Hrdereg.
  destruct (calls_before_rollback_plain k) as (Hkrel & Hkmk & Hkreg & _).
  cbv zeta. rewrite Hc.
  (* the node creations and the registration among the answers *)
  assert (Htr : forall f,
            f loaded_msg = false ->
            forallb (fun c => negb (f c)) (calls_before_rollback k) = true ->
            forallb (fun c => negb (f c)) (rollback_calls p w1) = true ->
            filter (fun a => f (fst a))
              (answers p (history w)
                 (loaded_msg :: ic ++ calls_before_rollback k ++
                  rollback_calls p w1)) =
            filter (fun a => f (fst a)) (answers p (history w0) ic)).
  { intros f Hl Hk Hr. cbn [answers filter fst]. rewrite Hl.
    rewrite !answers_app, !filter_app.
    rewrite (answers_filter_none p f _ _ Hk), (answers_filter_none p f _ _ Hr).
    rewrite !app_nil_r. reflexivity. }
  (* the removals and the deregistration among the calls *)
  assert (Hcalls : forall f,
            f loaded_msg = false ->
            (forall c, f c = true -> is_release c = true) ->
            filter f (loaded_msg :: ic ++ calls_before_rollback k ++
                      rollback_calls p w1) =
            filter f (rollback_calls p w1)).
  { intros f Hl Hf. cbn [filter]. rewrite Hl, !filter_app.
    assert (Hnone : forall l, no_release l = true -> filter f l = []).
    { intros l Hl'. apply filter_none. unfold no_release in Hl'.
      rewrite forallb_forall in *. intros c Hc'. specialize (Hl' c Hc').
      destruct (f c) eqn:E; [|reflexivity].
      rewrite (Hf c E) in Hl'. discriminate. }
    rewrite (Hnone ic Hrel), (Hnone _ Hkrel). reflexivity. }
  split.
  - intros n.
    assert (Hl : In (devfs_remove n)
                   (loaded_msg :: ic ++ calls_before_rollback k ++
                    rollback_calls p w1) <->
                 In (devfs_remove n) (node_removals gi)).
    { rewrite <- Hrnode, <- (Hcalls is_node_removal eq_refl).
      - rewrite filter_In. cbn [is_node_removal]. tauto.
      - intros c Hc'. destruct c; try discriminate; reflexivity. }
    assert (Hr : (exists d pm nm,
                    In (devfs_make_node d pm nm, n)
                      (answers p (history w)
                         (loaded_msg :: ic ++ calls_before_rollback k ++
                          rollback_calls p w1))) <->
                 (exists d pm nm,
                    In (devfs_make_node d pm nm, n) (created_nodes p gi))).
    { rewrite <- Hmk, <- (Htr is_make_node eq_refl Hkmk Hrmk).
      split; intros (d & pm & nm & H); exists d, pm, nm.
      - apply filter_In. split; [exact H|reflexivity].
      - apply filter_In in H. apply H. }
    rewrite Hl, Hr, In_node_removals. clear Hl Hr Htr Hcalls.
    unfold created_nodes, info_node_call, dev_node_call.
    destruct (Z.ltb_spec (pmem_majorno gi) 0) as [Hneg|Hpos].
    + destruct (Hun1 Hneg) as [Hi Hd]. split.
      * intros [[E Hn]|[E Hn]]; congruence.
      * intros (_ & d & pm & nm & []).
    + destruct (truthy (pmem_infonode gi)) eqn:Hti.
      * apply truthy_true_nonnull in Hti. split.
        -- intros [[E Hn]|[E Hn]]; (split; [exact Hn|]); subst n;
             do 3 eexists; [right; left; reflexivity | left; reflexivity].
        -- intros (Hn & d & pm & nm & [H|[H|[]]]); injection H as _ _ _ E;
             [right | left]; split; congruence.
      * apply truthy_false in Hti. specialize (Hun2 Hti). split.
        -- intros [[E Hn]|[E Hn]]; congruence.
        -- intros (Hn & d & pm & nm & [H|[]]). injection H as _ _ _ E.
           congruence.
  - intros m.
    assert (Hl : In (cdevsw_remove m)
                   (loaded_msg :: ic ++ calls_before_rollback k ++
                    rollback_calls p w1) <->
                 0 < pmem_majorno gi /\ m = pmem_majorno gi).
    { assert (Hf : forall c, is_deregistration c = true ->
                         is_release c = true)
        by (intros c Hc'; destruct c; try discriminate; reflexivity).
      pose proof (Hcalls is_deregistration eq_refl Hf) as Hd.
      rewrite Hrdereg in Hd. split.
      - intros H.
        assert (H' : In (cdevsw_remove m)
                       (filter is_deregistration
                          (loaded_msg :: ic ++ calls_before_rollback k ++
                           rollback_calls p w1)))
          by (apply filter_In; split; [exact H|reflexivity]).
        rewrite Hd in H'.
        destruct (Z.ltb_spec 0 (pmem_majorno gi)) as [Hpos|Hneg];
          [|destruct H'].
        destruct H' as [H'|[]]. injection H' as H'.
        split; [exact Hpos|congruence].
      - intros [Hpos E].
        assert (H' : In (cdevsw_remove m)
                       (filter is_deregistration
                          (loaded_msg :: ic ++ calls_before_rollback k ++
                           rollback_calls p w1))).
        { rewrite Hd. apply Z.ltb_lt in Hpos. rewrite Hpos.
          left. congruence. }
        apply filter_In in H'. apply H'. }
    assert (Hr : (exists i,
                    In (cdevsw_add i, m)
                      (answers p (history w)
                         (loaded_msg :: ic ++ calls_before_rollback k ++
                          rollback_calls p w1))) <->
                 m = pmem_majorno gi).
    { split.
      - intros (i & H).
        assert (H' : In (cdevsw_add i, m)
                       (filter (fun a => is_registration (fst a))
                          (answers p (history w)
                             (loaded_msg :: ic ++ calls_before_rollback k ++
                              rollback_calls p w1))))
          by (apply filter_In; split; [exact H|reflexivity]).
        rewrite (Htr is_registration eq_refl Hkreg Hrreg), Hreg in H'.
        destruct H' as [H'|[]]. congruence.
      - intros E. exists (PMEM_MAJOR p).
        assert (H' : In (cdevsw_add (PMEM_MAJOR p), m)
                       (filter (fun a => is_registration (fst a))
                          (answers p (history w0) ic)))
          by (rewrite Hreg, E; left; reflexivity).
        rewrite <- (Htr is_registration eq_refl Hkreg Hrreg) in H'.
        apply filter_In in H'. apply H'. }
    rewrite Hl, Hr. split.
    + intros [Hpos E]. split; [congruence|exact E].
    + intros [Hpos E]. split; [congruence|exact E].
Qed.

Lemma failed_start_releases_what_it_created_witness :
  In (devfs_remove 65538)
    (calls_of (com_google_MacPmem_start pte_fails) (initial_world pte_fails)) /\
  In (cdevsw_remove 17)
    (calls_of (com_google_MacPmem_start pte_fails) (initial_world pte_fails)).
Proof.
  destruct (failed_start_releases_what_it_created pte_fails
              (initial_world pte_fails)) as [Hnodes Hmajor].
  - reflexivity.
  - reflexivity.
  - vm_compute. discriminate.
  - split.
    + apply (proj2 (Hnodes 65538)). split; [discriminate|].
      exists (darwin_makedev 17 2), 432, "pmem_info"%string.
      vm_compute. repeat (first [left; reflexivity | right]).
    + apply (proj2 (Hmajor 17)). split; [reflexivity|].
      exists (-1). vm_compute. repeat (first [left; reflexivity | right]).
Defined.

(** * Stop after start *)

(** X8. After a successful [com_google_MacPmem_start],
    [com_google_MacPmem_stop] removes both nodes, the memory node first,
    unregisters the sysctl and makes every other call of the rollback, and
    leaves the static variables as they were.  It returns [KERN_SUCCESS]
    or [KERN_FAILURE], and [KERN_SUCCESS] exactly when the major number is
    0 or [cdevsw_remove] answers it back. *)
Theorem stop_after_start_tears_down (p : platform) (w : world) :
  fst (com_google_MacPmem_start p w) = KERN_SUCCESS ->
  let w' := snd (com_google_MacPmem_start p w) in
  let g' := vars w' in
  let w1 := mkWorld g' (history w' ++ [unloading_msg]) in
  calls_of (com_google_MacPmem_stop p) w' =
    unloading_msg ::
    devfs_remove (pmem_devnode g') :: devfs_remove (pmem_infonode g') ::
    major_deregistration p w1 ++
    (if truthy (pmem_tag g') then [OSMalloc_Tagfree (pmem_tag g')] else []) ++
    [pmem_meta_cleanup; pmem_pte_cleanup; sysctl_unregister_oid] ++
    lock_group_release g' /\
  vars (snd (com_google_MacPmem_stop p w')) = g' /\
  (fst (com_google_MacPmem_stop p w') = KERN_SUCCESS \/
   fst (com_google_MacPmem_stop p w') = KERN_FAILURE) /\
  (fst (com_google_MacPmem_stop p w') = KERN_SUCCESS <->
   pmem_majorno g' = 0 \/ removed_idx p w1 = pmem_majorno g').
Proof.
  intros Hok.
  destruct (successful_start_calls p w Hok) as (Hi & _ & _ & Hw & _).
  set (w0 := mkWorld (vars w) (history w ++ [loaded_msg])) in *.
  destruct (pmem_init_run p w0)
    as (st & gi & ic & Hrun & _ & _ & _ & _ & Hiff & _).
  rewrite Hrun in Hi, Hw. cbn [fst snd vars] in Hi, Hw.
  apply Hiff in Hi. destruct Hi as (Hmaj & Hinfo & Hdev).
  cbv zeta. rewrite Hw. cbn [vars history].
  set (g' := set_pmem_sysctl_needs_cleanup 1 gi).
  set (w' := mkWorld g' _).
  set (w1 := mkWorld g' (history w' ++ [unloading_msg])).
  assert (Hrun' : com_google_MacPmem_stop p w' =
                  pmem_cleanup p KERN_SUCCESS w1) by reflexivity.
  assert (Htd : truthy (pmem_devnode g') = true)
    by (apply truthy_true; exact Hdev).
  assert (Hti : truthy (pmem_infonode g') = true)
    by (apply truthy_true; exact Hinfo).
  assert (Hflag : truthy (pmem_sysctl_needs_cleanup g') = true) by reflexivity.
  assert (Hmaj' : 0 <= pmem_majorno g') by exact Hmaj.
  clearbody g'.
  assert (Hcalls : rollback_calls p w1 =
            devfs_remove (pmem_devnode g') :: devfs_remove (pmem_infonode g') ::
            major_deregistration p w1 ++
            (if truthy (pmem_tag g')
             then [OSMalloc_Tagfree (pmem_tag g')] else []) ++
            [pmem_meta_cleanup; pmem_pte_cleanup; sysctl_unregister_oid] ++
            lock_group_release g').
  { unfold rollback_calls, node_removals, later_cleanup. cbn [vars w1].
    rewrite Htd, Hti, Hflag. reflexivity. }
  split; [|split; [|split]].
  - apply calls_of_history. rewrite Hrun', pmem_cleanup_run.
    cbn [snd history w1]. rewrite Hcalls, <- app_assoc. reflexivity.
  - rewrite Hrun'. apply pmem_cleanup_vars.
  - rewrite Hrun', pmem_cleanup_status. unfold rollback_status.
    destruct (0 <? pmem_majorno (vars w1));
      [destruct (removed_idx p w1 =? pmem_majorno (vars w1))|];
      first [left; reflexivity | right; reflexivity].
  - rewrite Hrun', pmem_cleanup_status. unfold rollback_status.
    cbn [vars w1].
    destruct (Z.ltb_spec 0 (pmem_majorno g')) as [Hpos|Hz].
    + destruct (Z.eqb_spec (removed_idx p w1) (pmem_majorno g')) as [He|Hne].
      * split; [intros _; right; exact He | reflexivity].
      * split; [discriminate|]. intros [Hz|He]; [lia|contradiction].
    + split; [intros _; left; lia | reflexivity].
Qed.

Lemma stop_after_start_tears_down_witness :
  fst (com_google_MacPmem_stop healthy (started healthy)) = KERN_SUCCESS /\
  fst (com_google_MacPmem_stop bad_echo (started bad_echo)) = KERN_FAILURE.
Proof.
  destruct (stop_after_start_tears_down healthy (initial_world healthy))
    as (_ & _ & _ & Hh); [reflexivity|].
  destruct (stop_after_start_tears_down bad_echo (initial_world bad_echo))
    as (_ & _ & [Hb|Hb] & Hb'); [reflexivity| |].
  - exfalso. apply (proj1 Hb') in Hb. revert Hb. vm_compute.
    intros [H|H]; discriminate H.
  - split; [|exact Hb]. apply (proj2 Hh). right. reflexivity.
Defined.

(** * The nodes and the dispatch *)

(** X9. The nodes [pmem_init] creates reach the device they are named
    after.  Provided the platform's [minor] gives back the minor number
    [makedev] was given, on the major number in use: every
    [devfs_make_node] call of [pmem_init] is either the one for pmem_info,
    and open, close and read on its device number go to [pmem_openmeta],
    [pmem_closemeta] and [pmem_readmeta]; or the one for pmem, and open and
    close on its device number succeed without a call and read goes to
    [pmem_read_rogue].  Both are created with [PMEM_DEV_PERMS]. *)
Theorem created_nodes_dispatch (p : platform) (w w2 : world) (uio : Z) :
  let g' := vars (snd (pmem_init p w)) in
  minor p (makedev p (pmem_majorno g') PMEM_INFO_MINOR) = PMEM_INFO_MINOR ->
  minor p (makedev p (pmem_majorno g') PMEM_DEV_MINOR) = PMEM_DEV_MINOR ->
  forall d pm nm n,
    In (devfs_make_node d pm nm, n)
      (answers p (history w) (calls_of (pmem_init p) w)) ->
    pm = PMEM_DEV_PERMS p /\
    ((nm = pmem_infoname /\ n = pmem_infonode g' /\
      pmem_open p d w2 =
        (respond p (history w2) pmem_openmeta,
         mkWorld (vars w2) (history w2 ++ [pmem_openmeta])) /\
      pmem_close p d w2 =
        (respond p (history w2) pmem_closemeta,
         mkWorld (vars w2) (history w2 ++ [pmem_closemeta])) /\
      pmem_read p d uio w2 =
        (respond p (history w2) (pmem_readmeta uio),
         mkWorld (vars w2) (history w2 ++ [pmem_readmeta uio]))) \/
     (nm = pmem_devname /\ n = pmem_devnode g' /\
      pmem_open p d w2 = (KERN_SUCCESS, w2) /\
      pmem_close p d w2 = (KERN_SUCCESS, w2) /\
      pmem_read p d uio w2 =
        (respond p (history w2) (pmem_read_rogue uio),
         mkWorld (vars w2) (history w2 ++ [pmem_read_rogue uio])))).
Proof.
  intros g' Hinfo Hdev d pm nm n Hin.
  destruct (pmem_init_run p w)
    as (st & gi & ic & Hrun & _ & _ & _ & _ & _ & _ & _ & Hmk & _).
  rewrite (calls_of_history _ w ic) in Hin by (rewrite Hrun; reflexivity).
  assert (Hg : g' = gi) by (subst g'; rewrite Hrun; reflexivity).
  rewrite Hg in *. clear Hg g'.
  assert (Hin' : In (devfs_make_node d pm nm, n) (created_nodes p gi)).
  { rewrite <- Hmk. apply filter_In. split; [exact Hin|reflexivity]. }
  clear Hin Hmk Hrun.
  unfold created_nodes, info_node_call, dev_node_call in Hin'.
  destruct (pmem_majorno gi <? 0); [destruct Hin'|].
  destruct Hin' as [H|H].
  - injection H as Ed Epm Enm En. subst d pm nm n.
    split; [reflexivity|]. left.
    unfold pmem_open, pmem_close, pmem_read. rewrite Hinfo.
    repeat split.
  - destruct (truthy (pmem_infonode gi)); [|destruct H].
    destruct H as [H|[]]. injection H as Ed Epm Enm En. subst d pm nm n.
    split; [reflexivity|]. right.
    unfold pmem_open, pmem_close, pmem_read. rewrite Hdev.
    repeat split.
Qed.

Lemma created_nodes_dispatch_witness :
  pmem_open healthy (darwin_makedev 17 2) (started healthy) =
    (respond healthy (history (started healthy)) pmem_openmeta,
     mkWorld (vars (started healthy))
       (history (started healthy) ++ [pmem_openmeta])).
Proof.
  destruct (created_nodes_dispatch healthy (initial_world healthy)
              (started healthy) 0) with
    (d := darwin_makedev 17 2) (pm := 432) (nm := "pmem_info"%string)
    (n := 65538) as [_ [H|H]].
  - reflexivity.
  - reflexivity.
  - vm_compute. repeat (first [left; reflexivity | right]).
  - apply H.
  - exfalso. destruct H as [H _]. discriminate H.
Defined.

(** * The rollback in detail *)

(** X10. The rollback deregisters exactly when [pmem_majorno] is positive:
    then once, with the number stored, and otherwise, for 0 as for a
    negative number, not at all. *)
Theorem deregistration_iff_positive_major (p : platform) (e : Z) (w : world) :
  filter is_deregistration (calls_of (pmem_cleanup p e) w) =
    (if 0 <? pmem_majorno (vars w)
     then [cdevsw_remove (pmem_majorno (vars w))] else []).
Proof.
  rewrite pmem_cleanup_calls. apply rollback_calls_acquire_nothing.
Qed.

(** X11. The rollback acquires nothing and says nothing but its one
    complaint: every call it makes is a release, except the error message
    that follows a [cdevsw_remove] which answered another number than the
    one stored; and its only sysctl call is the unregistration, made
    exactly when [pmem_sysctl_needs_cleanup] is set. *)
Theorem cleanup_only_releases (p : platform) (e : Z) (w : world) :
  filter (fun c => negb (is_release c)) (calls_of (pmem_cleanup p e) w) =
    (if (0 <? pmem_majorno (vars w)) &&
        negb (removed_idx p w =? pmem_majorno (vars w))
     then [pmem_log Error cdevsw_mismatch_fmt
             [arg_d (pmem_majorno (vars w)); arg_d (removed_idx p w)]]
     else []) /\
  filter is_sysctl (calls_of (pmem_cleanup p e) w) =
    (if truthy (pmem_sysctl_needs_cleanup (vars w))
     then [sysctl_unregister_oid] else []).
Proof.
  rewrite pmem_cleanup_calls. split; apply rollback_calls_acquire_nothing.
Qed.

(** X12. Every rollback frees each of the four lock handles exactly once,
    attribute before group and mutex before rwlock, as its last four
    calls, whatever the handles hold. *)
Theorem lock_groups_freed_last (p : platform) (e : Z) (w : world) :
  filter is_lock_free (calls_of (pmem_cleanup p e) w) =
    lock_group_release (vars w) /\
  exists pre,
    calls_of (pmem_cleanup p e) w = pre ++ lock_group_release (vars w) /\
    filter is_lock_free pre = [].
Proof.
  split.
  - rewrite pmem_cleanup_calls. apply rollback_calls_leave_modules_alone.
  - destruct (lock_groups_released_unguarded p e w) as (pre & Hc & Hpre).
    exists pre. split; [exact Hc|].
    apply filter_none. rewrite forallb_forall in *.
    intros c Hin. specialize (Hpre c Hin). destruct c; try reflexivity;
      discriminate.
Qed.

(** X13. The steps of [com_google_MacPmem_start] are gated: the metadata
    module is asked to initialise only after [pmem_init] succeeded, the PTE
    module only after the metadata module answered [KERN_SUCCESS], and the
    start succeeds exactly when all three do. *)
Theorem start_steps_are_gated (p : platform) (w : world) :
  let w0 := mkWorld (vars w) (history w ++ [loaded_msg]) in
  let t1 := history w ++ loaded_msg :: calls_of (pmem_init p) w0 in
  let init_ok := fst (pmem_init p w0) =? KERN_SUCCESS in
  let meta_ok := respond p t1 pmem_meta_init =? KERN_SUCCESS in
  let pte_ok := respond p (t1 ++ [pmem_meta_init]) pmem_pte_init =? KERN_SUCCESS in
  filter is_module_init (calls_of (com_google_MacPmem_start p) w) =
    (if init_ok
     then pmem_meta_init :: (if meta_ok then [pmem_pte_init] else [])
     else []) /\
  (fst (com_google_MacPmem_start p w) =? KERN_SUCCESS) =
    init_ok && meta_ok && pte_ok.
Proof.
  intros w0 t1 init_ok meta_ok pte_ok.
  pose proof (pmem_init_leaves_modules_alone p w0) as Hic.
  destruct (start_run p w) as [(Hi & Hm & Hp & Hrun)|(e & k & He & Hrun & Hk)].
  - fold w0 in Hi, Hm, Hp, Hrun. fold t1 in Hm, Hp, Hrun.
    subst init_ok meta_ok pte_ok. rewrite Hi, Hm, Hp.
    rewrite (calls_of_history _ w
               (loaded_msg :: calls_of (pmem_init p) w0 ++
                [pmem_meta_init; pmem_pte_init; sysctl_register_oid]))
      by (rewrite Hrun; cbn [snd history]; subst t1;
          rewrite <- app_assoc; reflexivity).
    rewrite Hrun. split; [|reflexivity].
    change (loaded_msg :: ?l) with ([loaded_msg] ++ l).
    rewrite !filter_app, (filter_none is_module_init _ Hic). reflexivity.
  - fold w0 in Hrun, Hk. fold t1 in Hrun, Hk.
    assert (Hfail : (fst (com_google_MacPmem_start p w) =? KERN_SUCCESS) =
                    false).
    { apply Z.eqb_neq. rewrite Hrun, pmem_cleanup_status.
      apply rollback_status_failure. exact He. }
    rewrite Hfail.
    rewrite (calls_of_history _ w
               (loaded_msg :: calls_of (pmem_init p) w0 ++
                calls_before_rollback k ++
                rollback_calls p
                  (mkWorld (vars (snd (pmem_init p w0)))
                     (t1 ++ calls_before_rollback k))))
      by (rewrite Hrun, pmem_cleanup_run; cbn [snd history]; subst t1;
          rewrite <- !app_assoc; reflexivity).
    change (loaded_msg :: ?l) with ([loaded_msg] ++ l).
    rewrite !filter_app, (filter_none is_module_init _ Hic).
    rewrite (filter_none is_module_init (rollback_calls _ _))
      by apply rollback_calls_leave_modules_alone.
    subst init_ok meta_ok pte_ok.
    destruct k.
    + destruct Hk as [Hi _]. rewrite Hi. split; reflexivity.
    + destruct Hk as [Hi Hm]. rewrite Hi. rewrite <- Hm.
      apply Z.eqb_neq in He. rewrite He. split; reflexivity.
    + destruct Hk as (Hi & Hm & Hp). rewrite Hi, Hm, <- Hp.
      apply Z.eqb_neq in He. rewrite He. split; reflexivity.
Qed.
